(** * checkpy: a shallow embedding of [checkpy.py]

    The script walks a directory tree, runs pylint and pycodestyle on every
    [.py] file through [subprocess.call], and exits with a failure count.
    Everything the script obtains from its surroundings (the file system, the
    search path, the exit statuses of the child processes) is a field of
    [env]; everything it mutates (standard output, the module-level
    [IGNORE_PEP] dictionary, the child processes it started) is a field of
    [state]. *)

From Stdlib Require Import String Ascii List ZArith Lia Bool Arith.
Import ListNotations.
Local Open Scope string_scope.
Set Warnings "-register-all".

(** ** Python strings

    A string is a Python 3 [str] whose code points are all below 256; each
    character stands for one code point. *)

Module PyStr.

Definition nl : string := String (ascii_of_nat 10) EmptyString.
Definition tab : string := String (ascii_of_nat 9) EmptyString.
Definition dquote : string := String (ascii_of_nat 34) EmptyString.

(** [os.path.sep] on the platforms the script targets. *)
Definition sep : string := "/".

(** [s.endswith(suffix)] *)
Definition endswith (s suffix : string) : bool :=
  let n := String.length s in
  let m := String.length suffix in
  (m <=? n)%nat && String.eqb (substring (n - m) m s) suffix.

(** [sep.join(items)] *)
Fixpoint join (sepr : string) (items : list string) : string :=
  match items with
  | [] => ""
  | [x] => x
  | x :: rest => x ++ sepr ++ join sepr rest
  end.

(** [s.split(c)] for a one-character separator: the pieces between the
    occurrences of [c], empty pieces included; never an empty list. *)
Fixpoint split_aux (c : ascii) (s : string) (cur : string) : list string :=
  match s with
  | EmptyString => [cur]
  | String a s' =>
      if Ascii.eqb a c then cur :: split_aux c s' ""
      else split_aux c s' (cur ++ String a EmptyString)
  end.

Definition split (c : ascii) (s : string) : list string := split_aux c s "".

(** The code points below 256 that [str.strip()] removes: U+0009 to
    U+000D, U+001C to U+0020, U+0085 and U+00A0. *)
Definition is_space (a : ascii) : bool :=
  let n := nat_of_ascii a in
  ((9 <=? n) && (n <=? 13) || (28 <=? n) && (n <=? 32)
   || (n =? 133) || (n =? 160))%nat.

Fixpoint lstrip (s : string) : string :=
  match s with
  | EmptyString => EmptyString
  | String a s' => if is_space a then lstrip s' else s
  end.

(** Drops trailing white space: a character survives when it is not a
    space or something after it survives. *)
Fixpoint rstrip (s : string) : string :=
  match s with
  | EmptyString => EmptyString
  | String a s' =>
      match rstrip s' with
      | EmptyString => if is_space a then EmptyString else String a EmptyString
      | r => String a r
      end
  end.

Definition strip (s : string) : string := rstrip (lstrip s).

(** [os.path.join(a, b)] for a relative second component. *)
Definition path_join (a b : string) : string :=
  if String.eqb a "" then b
  else if endswith a sep then a ++ b
  else a ++ sep ++ b.

End PyStr.

(** ** The dictionary of ignored warnings

    A Python [dict] keeps its keys in insertion order, and the script joins
    and prints them in that order, so the dictionary is an association list
    in insertion order. *)

Definition dict := list (string * string).

Definition keys (d : dict) : list string := map fst d.

(** [k in d] *)
Fixpoint contains (d : dict) (k : string) : bool :=
  match d with
  | [] => false
  | (k', _) :: d' => String.eqb k' k || contains d' k
  end.

(** [d.pop(k)]: [None] stands for the [KeyError] raised on an absent key,
    otherwise the dictionary without the entry of [k]. *)
Fixpoint pop (k : string) (d : dict) : option dict :=
  match d with
  | [] => None
  | (k', v) :: d' =>
      if String.eqb k' k then Some d'
      else match pop k d' with
           | Some r => Some ((k', v) :: r)
           | None => None
           end
  end.

Definition IGNORE_PEP : dict :=
  [ ("E121", "indentation is not a multiple of four");
    ("E122", "missing indentation or outdented");
    ("E123", "closing bracket does not match indentation of" ++
             " opening brackets line");
    ("E125", "continuation line does not distinguish itself" ++
             " from next logical line");
    ("E126", "over-indented for hanging indent");
    ("E127", "over-indented for visual indent");
    ("E128", "continuation line under-indented for visual indent");
    ("E302", "expected 2 blank lines, found %d");
    ("E501", "line too long (%d > %d characters)");
    ("W391", "blank line at end of file") ].

(** ** The file system

    A directory holds named entries in the order [scandir] reports them.
    Resolving a path string to a node is the operating system's business and
    is a field of [env]; [os.walk] itself is written out. *)

Inductive node : Type :=
| File : node
| Dir : list (string * node) -> node.

Definition is_dir_node (n : node) : bool :=
  match n with Dir _ => true | File => false end.

Definition dirnames (es : list (string * node)) : list string :=
  map fst (filter (fun e => is_dir_node (snd e)) es).

Definition filenames (es : list (string * node)) : list string :=
  map fst (filter (fun e => negb (is_dir_node (snd e))) es).

(** One item of [os.walk]: [(dirpath, dirnames, filenames)]. *)
Definition walk_item : Type := string * list string * list string.

(** [os.walk(top)] top-down: the directory itself, then each of its
    sub-directories in turn under [os.path.join(top, name)]. *)
Fixpoint walk (top : string) (n : node) : list walk_item :=
  match n with
  | File => []
  | Dir es =>
      (top, dirnames es, filenames es) ::
      (fix subdirs (l : list (string * node)) : list walk_item :=
         match l with
         | [] => []
         | (name, d) :: l' =>
             match d with
             | File => subdirs l'
             | Dir _ => (walk (PyStr.path_join top name) d ++ subdirs l')%list
             end
         end) es
  end.

(** The two nested [for] loops over a walk: every file name ending in
    [.py], as [dpath + os.path.sep + myfile]. *)
Definition py_files (items : list walk_item) : list string :=
  flat_map
    (fun it : walk_item =>
       let '(dpath, _, files) := it in
       map (fun myfile => dpath ++ PyStr.sep ++ myfile)
           (filter (fun myfile => PyStr.endswith myfile ".py") files))
    items.

(** ** Values, exceptions, environment and state *)

(** The values an attribute of the parsed options can hold. *)
Inductive pyval : Type :=
| PyBool : bool -> pyval
| PyString : string -> pyval.

(** Truth value of a Python object in an [if]. *)
Definition truth (v : pyval) : bool :=
  match v with
  | PyBool b => b
  | PyString s => negb (String.eqb s "")
  end.

Inductive exn : Type :=
| AttributeError : string -> exn.

Record Namespace : Type := {
  listpep : pyval;
  pepkeylist : pyval;
  paths : list string
}.

(** What [parser.parse_args()] returns: both options are declared with
    [action='store_true'], so each attribute is [True] when its option
    occurs on the command line and [False] otherwise, and neither option
    takes an argument; all remaining arguments are collected in [paths].
    A command line the parser rejects, or one asking for help, ends inside
    the library and never reaches the body of [main]. *)
Definition parse_args (list_given remove_given : bool)
    (positionals : list string) : Namespace :=
  {| listpep := PyBool list_given;
     pepkeylist := PyBool remove_given;
     paths := positionals |}.

Record env : Type := {
  argv0 : string;                         (* sys.argv[0] *)
  version_major : Z;                      (* sys.version_info.major *)
  module_dir : string;                    (* os.path.dirname(__file__) *)
  getcwd : string;                        (* os.getcwd() *)
  fs : string -> option node;             (* path resolution *)
  find_executable : string -> option string;  (* spawn.find_executable *)
  call : nat -> string -> Z               (* exit status of the n-th child *)
}.

Record state : Type := {
  stdout : list string;      (* chunks written, oldest first *)
  registry : dict;           (* the module-level IGNORE_PEP *)
  spawned : list string      (* shell commands run, oldest first *)
}.

Definition initial : state :=
  {| stdout := []; registry := IGNORE_PEP; spawned := [] |}.

(** How a computation ends: normally, through [sys.exit], or with an
    uncaught exception. *)
Inductive result (A : Type) : Type :=
| Ret : A -> result A
| Exit : Z -> result A
| Raise : exn -> result A.

Arguments Ret {A} _.
Arguments Exit {A} _.
Arguments Raise {A} _.

Definition M (A : Type) : Type := state -> result A * state.

Definition ret {A} (a : A) : M A := fun s => (Ret a, s).

Definition bind {A B} (m : M A) (k : A -> M B) : M B :=
  fun s =>
    match m s with
    | (Ret a, s') => k a s'
    | (Exit c, s') => (Exit c, s')
    | (Raise e, s') => (Raise e, s')
    end.

Declare Scope py_scope.
Delimit Scope py_scope with py.
Notation "x <- m ;; k" := (bind m (fun x => k))
  (at level 61, m at next level, right associativity) : py_scope.
Notation "m ;; k" := (bind m (fun _ => k))
  (at level 61, right associativity) : py_scope.
Local Open Scope py_scope.

Definition sys_exit {A} (code : Z) : M A := fun s => (Exit code, s).

Definition raise {A} (e : exn) : M A := fun s => (Raise e, s).

Definition write (chunk : string) : M unit :=
  fun s => (Ret tt, {| stdout := (stdout s ++ [chunk])%list;
                       registry := registry s;
                       spawned := spawned s |}).

(** [print(x)] writes [x] and a newline. *)
Definition print (x : string) : M unit := write (x ++ PyStr.nl).

Definition get_registry : M dict := fun s => (Ret (registry s), s).

Definition set_registry (d : dict) : M unit :=
  fun s => (Ret tt, {| stdout := stdout s; registry := d;
                       spawned := spawned s |}).

(** A [for] loop whose body has no loop-carried variable. *)
Fixpoint for_each {A} (l : list A) (body : A -> M unit) : M unit :=
  match l with
  | [] => ret tt
  | x :: l' => body x ;; for_each l' body
  end.

(** ** The script *)

Section Script.

Variable E : env.

Definition PYLINT : string :=
  if (version_major E =? 3)%Z then "pylint3" else "pylint2".

Definition IMPORT_ERROR_MSG : string :=
  PyStr.join PyStr.nl
    [ ""; "";
      "    pylint and/or pycodestyle not available";
      "    Install these packages from:";
      "";
      "    https://pypi.python.org/pypi/pylint";
      ""; "";
      "    Or, if you're on a Unix-like platform, try these commands:";
      "";
      "        sudo apt install pylint";
      "        sudo apt install pylint3";
      "        sudo pip install autopep8";
      "        sudo apt install pycodestyle";
      "";
      "    And then try running the program: " ++ argv0 E ++ " once again";
      ""; "" ].

Definition isfile (p : string) : bool :=
  match fs E p with Some File => true | _ => false end.

Definition isdir (p : string) : bool :=
  match fs E p with Some (Dir _) => true | _ => false end.

(** [os.walk(top)]; nothing is yielded when [top] is no directory. *)
Definition os_walk (top : string) : list walk_item :=
  match fs E top with
  | Some n => walk top n
  | None => []
  end.

(** What one candidate path appends to [filelist] (lines 120-126). *)
Definition candidate (thisfile : string) : list string :=
  if isfile thisfile && PyStr.endswith thisfile ".py" then [thisfile]
  else if isdir thisfile then py_files (os_walk thisfile)
  else [].

(** The [for thisfile in paths] loop, [filelist] being the accumulator. *)
Fixpoint collect (paths : list string) (filelist : list string)
  : list string :=
  match paths with
  | [] => filelist
  | thisfile :: rest => collect rest (filelist ++ candidate thisfile)%list
  end.

(** Lines 111-126. *)
Definition resolve (paths : option (list string)) : list string :=
  match paths with
  | None => py_files (os_walk (getcwd E))
  | Some ps => collect ps []
  end.

(** [subprocess.call(cmd, shell=True)] *)
Definition subprocess_call (cmd : string) : M Z :=
  fun s => (Ret (call E (List.length (spawned s)) cmd),
            {| stdout := stdout s; registry := registry s;
               spawned := (spawned s ++ [cmd])%list |}).

Definition mypylint : string :=
  let folder := module_dir E in
  let rcfile := PyStr.path_join folder "pylintrc" in
  if isfile rcfile
  then PYLINT ++ " --rcfile=" ++ PyStr.dquote ++ rcfile ++ PyStr.dquote
  else PYLINT ++ " ".

Definition mypycodestyle (reg : dict) : string :=
  "pycodestyle --ignore=" ++ PyStr.join "," (keys reg) ++ " --statistics ".

(** One tool on one file: the status line and the updated counter. *)
Definition tally (res rescount : Z) : string * Z :=
  if (res =? 0)%Z then ("SUCCESS", rescount)
  else ("FAILED", (rescount + 1)%Z).

(** The loop of lines 129-151; [rescount] is the loop-carried variable,
    overwritten by the first statement of the body. *)
Fixpoint check_loop (pylint_cmd pycodestyle_cmd : string)
    (filelist : list string) (rescount : Z) : M Z :=
  match filelist with
  | [] => ret rescount
  | myfile :: rest =>
      let rescount := 0%Z in
      write ("starting pylint, as " ++ pylint_cmd ++ " " ++ myfile
             ++ PyStr.nl) ;;
      res <- subprocess_call (pylint_cmd ++ " " ++ myfile) ;;
      let '(result, rescount) := tally res rescount in
      write ("pylint: " ++ result ++ PyStr.nl) ;;
      write ("starting pycodestyle, as " ++ pycodestyle_cmd) ;;
      res <- subprocess_call (pycodestyle_cmd ++ " " ++ myfile) ;;
      let '(result, rescount) := tally res rescount in
      write ("pycodestyle: " ++ result ++ PyStr.nl) ;;
      check_loop pylint_cmd pycodestyle_cmd rest rescount
  end.

Definition check (paths : option (list string)) : M Z :=
  reg <- get_registry ;;
  let filelist := resolve paths in
  let rescount := 0%Z in
  check_loop mypylint (mypycodestyle reg) filelist rescount.

Definition list_pep_keys : M unit :=
  print (PyStr.nl ++ PyStr.tab
         ++ "These are the PEP Keys that are being ignored:" ++ PyStr.nl) ;;
  reg <- get_registry ;;
  for_each reg
    (fun kv => print (PyStr.tab ++ fst kv ++ ": " ++ snd kv ++ PyStr.nl)) ;;
  sys_exit 0.

Definition check_sanity : M unit :=
  (match find_executable E PYLINT with
   | None => print IMPORT_ERROR_MSG ;; sys_exit 1
   | Some _ => ret tt
   end) ;;
  (match find_executable E "pycodestyle" with
   | None => print IMPORT_ERROR_MSG ;; sys_exit 1
   | Some _ => ret tt
   end).

(** [keystr.split(',')]: only a string has the method. *)
Definition split_method (keystr : pyval) : M (list string) :=
  match keystr with
  | PyString s => ret (PyStr.split "," s)
  | PyBool _ =>
      raise (AttributeError "'bool' object has no attribute 'split'")
  end.

(** The body of the loop of lines 202-209. *)
Definition remove_key (k : string) : M unit :=
  reg <- get_registry ;;
  match pop k reg with
  | Some reg' =>
      set_registry reg' ;;
      print ("Removing key:" ++ k ++ " from PEP ignore list" ++ PyStr.nl)
  | None =>
      print ("Error, key " ++ k ++ " not found, these are the keys:"
             ++ PyStr.nl) ;;
      list_pep_keys ;;
      sys_exit 1
  end.

(** Lines 201-209, from the pieces [keystr.split(',')] returned. *)
Definition remove_loop (pieces : list string) : M unit :=
  let keylist := map PyStr.strip pieces in
  for_each keylist remove_key.

Definition main (options : Namespace) : M unit :=
  (if truth (listpep options) then list_pep_keys else ret tt) ;;
  (if truth (pepkeylist options) then
     let keystr := pepkeylist options in
     pieces <- split_method keystr ;;
     remove_loop pieces
   else ret tt) ;;
  check_sanity ;;
  myrc <- (if (List.length (paths options) =? 0)%nat then check None
           else check (Some (paths options))) ;;
  sys_exit myrc.

End Script.

(** ** The command line

    The parser of [main] declares the options [-l]/[--list] and
    [-r]/[--remove], both without argument, gets [-h]/[--help] from the
    library, and collects the other arguments in [paths] ([nargs='*']). *)

Inductive cli_arg : Type :=
| Opt_list : cli_arg                (* -l, --list *)
| Opt_remove : cli_arg              (* -r, --remove *)
| Opt_help : cli_arg                (* -h, --help *)
| Path : string -> cli_arg.         (* an argument taken as positional *)

(** How [parse_args] ends: with the options, in the help action, or in
    [parser.error] on arguments it could not place. *)
Inductive parsed : Type :=
| Parsed : Namespace -> parsed
| Help : parsed
| Unrecognized : list string -> parsed.

(** The one positional [paths]: not matched yet, being matched against the
    block of arguments under the cursor, or matched and done with. *)
Inductive positional : Type :=
| Unseen : positional
| Open : list string -> positional
| Closed : list string -> positional.

(** What [paths] holds at the end of a scan; [default=[]]. *)
Definition matched (pos : positional) : list string :=
  match pos with
  | Unseen => []
  | Open acc => acc
  | Closed acc => acc
  end.

Definition close (pos : positional) : positional :=
  match pos with
  | Open acc => Closed acc
  | _ => pos
  end.

(** The library's scan, left to right.  The first block of positional
    arguments is matched against [paths] as a whole; an option ends the
    block, and positional arguments after that have nothing left to match
    and are extras.  The help action exits on the spot; extras are
    reported only once the scan is over. *)
Fixpoint scan (argv : list cli_arg) (list_given remove_given : bool)
    (pos : positional) (extras : list string) : parsed :=
  match argv with
  | [] =>
      match extras with
      | [] => Parsed (parse_args list_given remove_given (matched pos))
      | _ :: _ => Unrecognized extras
      end
  | Opt_help :: _ => Help
  | Opt_list :: rest => scan rest true remove_given (close pos) extras
  | Opt_remove :: rest => scan rest list_given true (close pos) extras
  | Path p :: rest =>
      match pos with
      | Unseen => scan rest list_given remove_given (Open [p]) extras
      | Open acc =>
          scan rest list_given remove_given (Open (acc ++ [p])%list) extras
      | Closed acc =>
          scan rest list_given remove_given pos (extras ++ [p])%list
      end
  end.

Definition argparse (argv : list cli_arg) : parsed :=
  scan argv false false Unseen [].

(** The two options the script declares. *)
Definition is_flag (a : cli_arg) : bool :=
  match a with
  | Opt_list | Opt_remove => true
  | _ => false
  end.

Definition is_list (a : cli_arg) : bool :=
  match a with Opt_list => true | _ => false end.

Definition is_remove (a : cli_arg) : bool :=
  match a with Opt_remove => true | _ => false end.


(** [main()] from the command line: the help action writes the help text
    and exits with 0, [parser.error] writes to standard error, which the
    state does not record, and exits with 2. *)
Definition run_main (E : env) (help_text : string) (argv : list cli_arg)
  : M unit :=
  match argparse argv with
  | Parsed options => main E options
  | Help => write help_text ;; sys_exit 0
  | Unrecognized _ => sys_exit 2
  end.

(** ** Reading a run *)

(** The failures the loop body counts for [myfile] when [n] children were
    started before it: one for each of the two statuses that is not 0. *)
Definition failures (E : env) (pylint_cmd pycodestyle_cmd : string)
    (n : nat) (myfile : string) : Z :=
  snd (tally (call E (S n) (pycodestyle_cmd ++ " " ++ myfile))
         (snd (tally (call E n (pylint_cmd ++ " " ++ myfile)) 0%Z))).

(** The commands the loop starts, in order. *)
Definition loop_cmds (pylint_cmd pycodestyle_cmd : string)
    (filelist : list string) : list string :=
  flat_map (fun myfile => [pylint_cmd ++ " " ++ myfile;
                           pycodestyle_cmd ++ " " ++ myfile]) filelist.

(** The value the loop returns, as a function of the list alone:
    [rescount] is what the loop is entered with, [n] the number of children
    started before. *)
Fixpoint loop_value (E : env) (pylint_cmd pycodestyle_cmd : string)
    (n : nat) (filelist : list string) (rescount : Z) : Z :=
  match filelist with
  | [] => rescount
  | myfile :: rest =>
      loop_value E pylint_cmd pycodestyle_cmd (S (S n)) rest
        (failures E pylint_cmd pycodestyle_cmd n myfile)
  end.

(** The failure count of the last file of the list only; 0 for no file. *)
Definition last_file_failures (E : env) (pylint_cmd pycodestyle_cmd : string)
    (n : nat) (filelist : list string) : Z :=
  match rev filelist with
  | [] => 0%Z
  | last :: before =>
      failures E pylint_cmd pycodestyle_cmd (n + 2 * List.length before) last
  end.

(** The failure count summed over all files. *)
Fixpoint total_failures (E : env) (pylint_cmd pycodestyle_cmd : string)
    (n : nat) (filelist : list string) : Z :=
  match filelist with
  | [] => 0%Z
  | myfile :: rest =>
      (failures E pylint_cmd pycodestyle_cmd n myfile
       + total_failures E pylint_cmd pycodestyle_cmd (S (S n)) rest)%Z
  end.

(** The exit statuses of the children of a run, in the order started. *)
Definition exit_statuses (E : env) (cmds : list string) : list Z :=
  map (fun nc => call E (fst nc) (snd nc))
      (combine (seq 0 (List.length cmds)) cmds).

(** What [list_pep_keys] writes for a registry. *)
Definition listing (reg : dict) : list string :=
  ((PyStr.nl ++ PyStr.tab ++ "These are the PEP Keys that are being ignored:"
    ++ PyStr.nl) ++ PyStr.nl)
  :: map (fun kv => (PyStr.tab ++ fst kv ++ ": " ++ snd kv ++ PyStr.nl)
                    ++ PyStr.nl) reg.

Definition tools_found (E : env) : bool :=
  match find_executable E (PYLINT E), find_executable E "pycodestyle" with
  | Some _, Some _ => true
  | _, _ => false
  end.

(** [s] after [chunks] were written to standard output. *)
Definition printed (s : state) (chunks : list string) : state :=
  {| stdout := (stdout s ++ chunks)%list;
     registry := registry s;
     spawned := spawned s |}.

(** [s] with the registry replaced by [d]. *)
Definition with_registry (s : state) (d : dict) : state :=
  {| stdout := stdout s; registry := d; spawned := spawned s |}.

(** [s] after the shell commands [cmds] were run. *)
Definition started (s : state) (cmds : list string) : state :=
  {| stdout := stdout s;
     registry := registry s;
     spawned := (spawned s ++ cmds)%list |}.

(** A directory [des] at path [dpath] lies at or below the directory [n]
    walked as [top]. *)
Inductive beneath : string -> node -> string -> list (string * node) -> Prop :=
| beneath_top : forall top es, beneath top (Dir es) top es
| beneath_sub : forall top es name es' dpath des,
    In (name, Dir es') es ->
    beneath (PyStr.path_join top name) (Dir es') dpath des ->
    beneath top (Dir es) dpath des.

(** Induction over a tree, with the hypothesis for every entry. *)
Fixpoint node_rect' (P : node -> Prop) (HF : P File)
    (HD : forall es, Forall (fun e => P (snd e)) es -> P (Dir es))
    (n : node) : P n :=
  match n with
  | File => HF
  | Dir es =>
      HD es
        ((fix entries (l : list (string * node))
            : Forall (fun e => P (snd e)) l :=
            match l with
            | [] => Forall_nil _
            | e :: l' => Forall_cons e (node_rect' P HF HD (snd e)) (entries l')
            end) es)
  end.

(** The word the loop prints for an exit status. *)
Definition status_word (res : Z) : string :=
  if (res =? 0)%Z then "SUCCESS" else "FAILED".

(** The chunks the loop writes, in order, when [n] children were started
    before it. *)
Fixpoint loop_output (E : env) (pylint_cmd pycodestyle_cmd : string)
    (n : nat) (filelist : list string) : list string :=
  match filelist with
  | [] => []
  | myfile :: rest =>
      ("starting pylint, as " ++ pylint_cmd ++ " " ++ myfile ++ PyStr.nl)
      :: ("pylint: "
          ++ status_word (call E n (pylint_cmd ++ " " ++ myfile))
          ++ PyStr.nl)
      :: ("starting pycodestyle, as " ++ pycodestyle_cmd)
      :: ("pycodestyle: "
          ++ status_word (call E (S n) (pycodestyle_cmd ++ " " ++ myfile))
          ++ PyStr.nl)
      :: loop_output E pylint_cmd pycodestyle_cmd (S (S n)) rest
  end.

(** A status line reporting a failed tool. *)
Definition is_failed_line (chunk : string) : bool :=
  String.eqb chunk ("pylint: FAILED" ++ PyStr.nl)
  || String.eqb chunk ("pycodestyle: FAILED" ++ PyStr.nl).

(** The registry without the entries of the keys [ks]. *)
Definition without (ks : list string) (d : dict) : dict :=
  filter (fun kv => negb (existsb (String.eqb (fst kv)) ks)) d.

(** The line printed for a key that was removed. *)
Definition removing_line (k : string) : string :=
  ("Removing key:" ++ k ++ " from PEP ignore list" ++ PyStr.nl) ++ PyStr.nl.

(** The line printed for a key that was not found. *)
Definition not_found_line (k : string) : string :=
  ("Error, key " ++ k ++ " not found, these are the keys:" ++ PyStr.nl)
  ++ PyStr.nl.

(** No character of [s] is [c]. *)
Fixpoint free_of (c : ascii) (s : string) : bool :=
  match s with
  | EmptyString => true
  | String a s' => negb (Ascii.eqb a c) && free_of c s'
  end.

(** ** Two concrete runs *)

Definition two_files (p : string) : option node :=
  if String.eqb p "a.py" || String.eqb p "b.py" then Some File else None.

(** Both tools installed; only the first child (pylint on the first file)
    exits with a status other than 0. *)
Definition first_pylint_fails : env :=
  {| argv0 := "checkpy.py";
     version_major := 3;
     module_dir := "";
     getcwd := ".";
     fs := two_files;
     find_executable := fun name => Some ("/usr/bin/" ++ name);
     call := fun n _ => if (n =? 0)%nat then 1%Z else 0%Z |}.

Definition three_files (p : string) : option node :=
  if String.eqb p "a.py" || String.eqb p "b.py" || String.eqb p "c.py"
  then Some File else None.

(** Both tools installed; only the fourth child (pycodestyle on the second
    file) exits with a status other than 0. *)
Definition middle_pycodestyle_fails : env :=
  {| argv0 := "checkpy.py";
     version_major := 3;
     module_dir := "";
     getcwd := ".";
     fs := three_files;
     find_executable := fun name => Some ("/usr/bin/" ++ name);
     call := fun n _ => if (n =? 3)%nat then 2%Z else 0%Z |}.

(** pylint3 is installed, pycodestyle is not. *)
Definition no_pycodestyle : env :=
  {| argv0 := "checkpy.py";
     version_major := 3;
     module_dir := "";
     getcwd := ".";
     fs := two_files;
     find_executable :=
       fun name => if String.eqb name "pylint3" then Some "/usr/bin/pylint3"
                   else None;
     call := fun _ _ => 0%Z |}.

(** A project directory next to two plain files. *)
Definition pkg_entries : list (string * node) :=
  [ ("m.py", File);
    ("sub", Dir [("n.py", File); ("r.txt", File)]);
    ("x.txt", File) ].

Definition project_tree (p : string) : option node :=
  if String.eqb p "a.py" then Some File
  else if String.eqb p "notes.txt" then Some File
  else if String.eqb p "pkg" then Some (Dir pkg_entries)
  else None.

Definition project : env :=
  {| argv0 := "checkpy.py";
     version_major := 3;
     module_dir := "";
     getcwd := "pkg";
     fs := project_tree;
     find_executable := fun name => Some ("/usr/bin/" ++ name);
     call := fun _ _ => 0%Z |}.

(** The same project, started from inside its directory. *)
Definition project_from_inside : env :=
  {| argv0 := "../checkpy.py";
     version_major := 3;
     module_dir := "..";
     getcwd := "/home/dev/pkg";
     fs := fun p => if String.eqb p "/home/dev/pkg" then Some (Dir pkg_entries)
                    else None;
     find_executable := fun name => Some ("/usr/bin/" ++ name);
     call := fun _ _ => 0%Z |}.

(** ** Running the monad *)

Lemma bind_ret {A B} (a : A) (k : A -> M B) (s : state) :
  bind (ret a) k s = k a s.
Proof. reflexivity. Qed.

Lemma bind_write {B} (chunk : string) (k : unit -> M B) (s : state) :
  bind (write chunk) k s = k tt (printed s [chunk]).
Proof. reflexivity. Qed.

Lemma bind_print {B} (x : string) (k : unit -> M B) (s : state) :
  bind (print x) k s = k tt (printed s [x ++ PyStr.nl]).
Proof. reflexivity. Qed.

Lemma bind_call {B} (E : env) (cmd : string) (k : Z -> M B) (s : state) :
  bind (subprocess_call E cmd) k s
  = k (call E (List.length (spawned s)) cmd) (started s [cmd]).
Proof. reflexivity. Qed.

Lemma bind_get_registry {B} (k : dict -> M B) (s : state) :
  bind get_registry k s = k (registry s) s.
Proof. reflexivity. Qed.

Lemma printed_nil (s : state) : printed s [] = s.
Proof. destruct s. unfold printed. simpl. now rewrite app_nil_r. Qed.

Lemma printed_printed (s : state) (a b : list string) :
  printed (printed s a) b = printed s (a ++ b).
Proof. unfold printed. simpl. now rewrite app_assoc. Qed.

(** ** The check loop *)

Section Loop.

Variable E : env.
Variables pylint_cmd pycodestyle_cmd : string.

Lemma tally_cases (res rescount : Z) :
  snd (tally res rescount) = rescount
  \/ snd (tally res rescount) = (rescount + 1)%Z.
Proof.
  unfold tally. destruct (res =? 0)%Z; simpl; auto.
Qed.

Lemma tally_zero (res rescount : Z) :
  (0 <= rescount)%Z ->
  (snd (tally res rescount) = 0%Z <-> res = 0%Z /\ rescount = 0%Z).
Proof.
  intros Hr. unfold tally.
  destruct (Z.eqb_spec res 0); simpl; split; intros; lia.
Qed.

Lemma failures_range (n : nat) (myfile : string) :
  (0 <= failures E pylint_cmd pycodestyle_cmd n myfile <= 2)%Z.
Proof.
  unfold failures.
  destruct (tally_cases (call E n (pylint_cmd ++ " " ++ myfile)) 0) as [H1|H1];
    rewrite H1;
    match goal with
    | |- context [tally ?r ?c] => destruct (tally_cases r c) as [H2|H2]
    end; rewrite H2; lia.
Qed.

Lemma failures_zero (n : nat) (myfile : string) :
  failures E pylint_cmd pycodestyle_cmd n myfile = 0%Z <->
  call E n (pylint_cmd ++ " " ++ myfile) = 0%Z
  /\ call E (S n) (pycodestyle_cmd ++ " " ++ myfile) = 0%Z.
Proof.
  unfold failures.
  pose proof (tally_cases (call E n (pylint_cmd ++ " " ++ myfile)) 0) as Hc.
  rewrite tally_zero by (destruct Hc as [-> | ->]; lia).
  rewrite tally_zero by lia. tauto.
Qed.

Lemma loop_value_last (before : list string) (last : string) :
  forall n rescount,
    loop_value E pylint_cmd pycodestyle_cmd n (before ++ [last]) rescount
    = failures E pylint_cmd pycodestyle_cmd
        (n + 2 * List.length before) last.
Proof.
  induction before as [|f before IH]; intros n rescount; simpl.
  - f_equal. lia.
  - rewrite IH. f_equal. lia.
Qed.

Lemma loop_value_spec (n : nat) (filelist : list string) :
  loop_value E pylint_cmd pycodestyle_cmd n filelist 0
  = last_file_failures E pylint_cmd pycodestyle_cmd n filelist.
Proof.
  unfold last_file_failures.
  destruct (rev filelist) as [|last before] eqn:Hrev.
  - apply (f_equal (@rev string)) in Hrev. rewrite rev_involutive in Hrev.
    subst filelist. reflexivity.
  - apply (f_equal (@rev string)) in Hrev. rewrite rev_involutive in Hrev.
    subst filelist. simpl. rewrite loop_value_last.
    now rewrite length_rev.
Qed.

(** One turn of the loop body. *)
Lemma check_loop_step (myfile : string) (rest : list string)
    (rescount : Z) (s : state) :
  exists out,
    check_loop E pylint_cmd pycodestyle_cmd (myfile :: rest) rescount s
    = check_loop E pylint_cmd pycodestyle_cmd rest
        (failures E pylint_cmd pycodestyle_cmd
           (List.length (spawned s)) myfile)
        (started (printed s out)
           [pylint_cmd ++ " " ++ myfile; pycodestyle_cmd ++ " " ++ myfile]).
Proof.
  cbn [check_loop]. rewrite bind_write, bind_call.
  unfold failures.
  destruct (tally (call E (List.length (spawned (printed s _))) _) 0)
    as [r1 c1] eqn:T1.
  rewrite !bind_write, bind_call.
  cbn [printed started spawned stdout registry] in *.
  rewrite length_app, Nat.add_1_r. cbn [List.length].
  rewrite T1. cbn [snd].
  destruct (tally (call E (S (List.length (spawned s))) _) c1)
    as [r2 c2] eqn:T2.
  rewrite bind_write. cbn [snd].
  eexists [_; _; _; _].
  f_equal. unfold started, printed. cbn [stdout registry spawned].
  rewrite <- !app_assoc. reflexivity.
Qed.

(** The loop always runs to its end: it returns [loop_value], starts the
    two commands of every file in order, and leaves the registry alone. *)
Lemma check_loop_run (filelist : list string) :
  forall rescount s,
  exists out,
    check_loop E pylint_cmd pycodestyle_cmd filelist rescount s
    = (Ret (loop_value E pylint_cmd pycodestyle_cmd
              (List.length (spawned s)) filelist rescount),
       started (printed s out)
         (loop_cmds pylint_cmd pycodestyle_cmd filelist)).
Proof.
  induction filelist as [|myfile rest IH]; intros rescount s.
  - exists []. cbn [check_loop loop_value loop_cmds flat_map].
    unfold ret, started. rewrite printed_nil. cbn.
    rewrite app_nil_r. now destruct s.
  - destruct (check_loop_step myfile rest rescount s) as [out1 ->].
    destruct (IH (failures E pylint_cmd pycodestyle_cmd
                    (List.length (spawned s)) myfile)
                 (started (printed s out1)
                    [pylint_cmd ++ " " ++ myfile;
                     pycodestyle_cmd ++ " " ++ myfile])) as [out2 ->].
    exists (out1 ++ out2)%list. f_equal.
    + f_equal. cbn [loop_value started printed spawned].
      rewrite length_app. cbn [List.length].
      now rewrite Nat.add_comm.
    + unfold started, printed. cbn [stdout registry spawned loop_cmds flat_map].
      rewrite <- !app_assoc. reflexivity.
Qed.

End Loop.

(** ** The check operation *)

Lemma check_run (E : env) (paths : option (list string)) (s : state) :
  exists out,
    check E paths s
    = (Ret (last_file_failures E (mypylint E) (mypycodestyle (registry s))
              (List.length (spawned s)) (resolve E paths)),
       started (printed s out)
         (loop_cmds (mypylint E) (mypycodestyle (registry s))
            (resolve E paths))).
Proof.
  unfold check. rewrite bind_get_registry.
  destruct (check_loop_run E (mypylint E) (mypycodestyle (registry s))
              (resolve E paths) 0 s) as [out ->].
  exists out. now rewrite loop_value_spec.
Qed.

Lemma last_file_failures_snoc (E : env) (pl pc : string) (n : nat)
    (before : list string) (last : string) :
  last_file_failures E pl pc n (before ++ [last])
  = failures E pl pc (n + 2 * List.length before) last.
Proof.
  unfold last_file_failures. rewrite rev_app_distr. simpl.
  now rewrite length_rev.
Qed.

Lemma failures_unfold (E : env) (pl pc : string) (n : nat) (f : string) :
  failures E pl pc n f
  = ((if (call E n (pl ++ " " ++ f) =? 0)%Z then 0 else 1)
     + (if (call E (S n) (pc ++ " " ++ f) =? 0)%Z then 0 else 1))%Z.
Proof.
  unfold failures, tally.
  destruct (call E n (pl ++ " " ++ f) =? 0)%Z;
    destruct (call E (S n) (pc ++ " " ++ f) =? 0)%Z; reflexivity.
Qed.

(** When every child exits with status 0 the result is 0. *)
Lemma all_success_returns_zero
    (E : env) (paths : option (list string)) (s : state) :
  (forall n cmd, call E n cmd = 0%Z) ->
  fst (check E paths s) = Ret 0%Z.
Proof.
  intros Hok. destruct (check_run E paths s) as [out ->]. cbn [fst].
  f_equal. unfold last_file_failures.
  destruct (rev (resolve E paths)); [reflexivity|].
  now rewrite failures_unfold, !Hok.
Qed.

(** C10: [check] returns the failure count of the last file of the resolved
    list only.  The count is 0, 1 or 2: one for each of the two exit
    statuses of that file that is not 0.  For an empty list it is 0. *)
Theorem check_returns_last_file_count
    (E : env) (paths : option (list string)) (s : state) :
  let pl := mypylint E in
  let pc := mypycodestyle (registry s) in
  let n := List.length (spawned s) in
  fst (check E paths s)
    = Ret (last_file_failures E pl pc n (resolve E paths))
  /\ (0 <= last_file_failures E pl pc n (resolve E paths) <= 2)%Z
  /\ last_file_failures E pl pc n [] = 0%Z
  /\ forall before last,
       last_file_failures E pl pc n (before ++ [last])
       = ((if (call E (n + 2 * List.length before)
                 (pl ++ " " ++ last) =? 0)%Z then 0 else 1)
          + (if (call E (S (n + 2 * List.length before))
                   (pc ++ " " ++ last) =? 0)%Z then 0 else 1))%Z.
Proof.
  intros pl pc n. repeat split.
  - destruct (check_run E paths s) as [out ->]. reflexivity.
  - unfold last_file_failures. destruct (rev (resolve E paths)); [lia|].
    apply failures_range.
  - unfold last_file_failures. destruct (rev (resolve E paths)); [lia|].
    apply failures_range.
  - intros before last.
    now rewrite last_file_failures_snoc, failures_unfold.
Qed.

Lemma remove_key_present (k : string) (s : state) (reg' : dict) :
  pop k (registry s) = Some reg' ->
  remove_key k s
  = (Ret tt,
     printed (with_registry s reg')
       [("Removing key:" ++ k ++ " from PEP ignore list" ++ PyStr.nl)
        ++ PyStr.nl]).
Proof.
  intros Hpop. unfold remove_key. rewrite bind_get_registry, Hpop.
  reflexivity.
Qed.

(** C9: the style-check command [check] runs on each file is
    [pycodestyle --ignore=<keys> --statistics], where [<keys>] is the keys
    of the registry at that moment joined by commas; in particular, once a
    key has been popped from the registry it is no longer in the value. *)
Theorem pycodestyle_command_ignores_registry_keys
    (E : env) (paths : option (list string)) (s : state) :
  spawned (snd (check E paths s))
  = List.app (spawned s)
      (loop_cmds (mypylint E)
         ("pycodestyle --ignore=" ++ PyStr.join "," (keys (registry s))
          ++ " --statistics ")
         (resolve E paths))
  /\ forall k reg',
       pop k (registry s) = Some reg' ->
       spawned (snd (bind (remove_key k) (fun _ => check E paths) s))
       = List.app (spawned s)
           (loop_cmds (mypylint E)
              ("pycodestyle --ignore=" ++ PyStr.join "," (keys reg')
               ++ " --statistics ")
              (resolve E paths)).
Proof.
  split.
  - destruct (check_run E paths s) as [out ->]. reflexivity.
  - intros k reg' Hpop. unfold bind.
    rewrite (remove_key_present k s reg' Hpop).
    match goal with
    | |- context [check E paths ?s1] =>
        destruct (check_run E paths s1) as [out ->]
    end.
    reflexivity.
Qed.

Lemma pycodestyle_command_witness :
  spawned (snd (bind (remove_key "E501")
                  (fun _ => check first_pylint_fails (Some ["a.py"]))
                  initial))
  = ["pylint3  a.py";
     "pycodestyle --ignore=E121,E122,E123,E125,E126,E127,E128,E302,W391"
     ++ " --statistics  a.py"].
Proof.
  exact (proj2 (pycodestyle_command_ignores_registry_keys
                  first_pylint_fails (Some ["a.py"]) initial)
           "E501" _ eq_refl).
Defined.

(** C1 (the code at the failing input): pylint exits with status 1 on
    [a.py], every other child exits with 0, one failure was counted in
    total, and yet the run over [a.py], [b.py] exits with code 0. *)
Theorem exit_zero_despite_failed_file :
  let run := main first_pylint_fails
               (parse_args false false ["a.py"; "b.py"]) initial in
  fst run = Exit 0
  /\ fst (check first_pylint_fails (Some ["a.py"; "b.py"]) initial) = Ret 0%Z
  /\ spawned (snd run)
     = ["pylint3  a.py";
        "pycodestyle --ignore=E121,E122,E123,E125,E126,E127,E128,E302,E501,W391"
        ++ " --statistics  a.py";
        "pylint3  b.py";
        "pycodestyle --ignore=E121,E122,E123,E125,E126,E127,E128,E302,E501,W391"
        ++ " --statistics  b.py"]
  /\ exit_statuses first_pylint_fails (spawned (snd run)) = [1; 0; 0; 0]%Z
  /\ total_failures first_pylint_fails (mypylint first_pylint_fails)
       (mypycodestyle IGNORE_PEP) 0 ["a.py"; "b.py"] = 1%Z.
Proof.
  vm_compute. repeat split; reflexivity.
Qed.

(** C2 (the code at the failing input): of the six children of a run over
    three files exactly one, pycodestyle on the second file, exits with a
    status other than 0, and the result of [check] is 0, not 1. *)
Theorem single_failure_not_reported :
  let run := check middle_pycodestyle_fails
               (Some ["a.py"; "b.py"; "c.py"]) initial in
  fst run = Ret 0%Z
  /\ resolve middle_pycodestyle_fails (Some ["a.py"; "b.py"; "c.py"])
     = ["a.py"; "b.py"; "c.py"]
  /\ exit_statuses middle_pycodestyle_fails (spawned (snd run))
     = [0; 0; 0; 2; 0; 0]%Z
  /\ nth 3 (spawned (snd run)) ""
     = "pycodestyle --ignore=E121,E122,E123,E125,E126,E127,E128,E302,E501,W391"
       ++ " --statistics  b.py".
Proof.
  vm_compute. repeat split; reflexivity.
Qed.

(** ** Listing, sanity check and the command line *)

Lemma bind_assoc {A B C} (m : M A) (f : A -> M B) (g : B -> M C) (s : state) :
  bind (bind m f) g s = bind m (fun x => bind (f x) g) s.
Proof.
  unfold bind. destruct (m s) as [[a|c|e] s']; reflexivity.
Qed.

Lemma bind_exits {A B} (m : M A) (k : A -> M B) (s s' : state) (c : Z) :
  m s = (Exit c, s') -> bind m k s = (Exit c, s').
Proof. intros H. unfold bind. now rewrite H. Qed.

Lemma for_each_print {A B} (f : A -> string) (l : list A) :
  forall (k : unit -> M B) (s : state),
    bind (for_each l (fun x => print (f x))) k s
    = k tt (printed s (map (fun x => f x ++ PyStr.nl) l)).
Proof.
  induction l as [|x l IH]; intros k s.
  - cbn [for_each map]. now rewrite bind_ret, printed_nil.
  - cbn [for_each map]. rewrite bind_assoc, bind_print, IH.
    now rewrite printed_printed.
Qed.

Lemma list_pep_keys_run (s : state) :
  list_pep_keys s = (Exit 0, printed s (listing (registry s))).
Proof.
  unfold list_pep_keys. rewrite bind_print, bind_get_registry.
  cbn [printed registry]. rewrite for_each_print.
  unfold sys_exit. now rewrite printed_printed.
Qed.

Lemma main_list_option
    (E : env) (remove_given : bool) (positionals : list string) (s : state) :
  main E (parse_args true remove_given positionals) s
  = (Exit 0, printed s (listing (registry s))).
Proof.
  unfold main. cbn [parse_args listpep truth].
  apply bind_exits, list_pep_keys_run.
Qed.

(** With [listpep] set in the parsed options, whatever the other options
    hold, [main] writes the listing of the registry (a heading, then one
    chunk per entry with its code and its description) and exits with
    code 0; no child process is started and the registry keeps its
    entries. *)
Theorem list_option_only_lists
    (E : env) (remove_given : bool) (positionals : list string) (s : state) :
  main E (parse_args true remove_given positionals) s
  = (Exit 0, printed s (listing (registry s)))
  /\ spawned (snd (main E (parse_args true remove_given positionals) s))
     = spawned s
  /\ registry (snd (main E (parse_args true remove_given positionals) s))
     = registry s.
Proof.
  rewrite main_list_option. repeat split.
Qed.

Lemma scan_parsed_list (argv : list cli_arg) :
  forall list_given remove_given pos extras ns,
    scan argv list_given remove_given pos extras = Parsed ns ->
    list_given = true \/ In Opt_list argv ->
    exists remove_given' positionals,
      ns = parse_args true remove_given' positionals.
Proof.
  induction argv as [|a argv IH]; intros l r pos extras ns Hscan Hlist.
  - cbn [scan] in Hscan. destruct extras; [|discriminate].
    injection Hscan as <-. destruct Hlist as [-> | []]. eauto.
  - destruct a; cbn [scan] in Hscan.
    + eapply IH; [exact Hscan | now left].
    + eapply IH; [exact Hscan|]. destruct Hlist as [H | [H | H]];
        [now left | discriminate | now right].
    + discriminate.
    + assert (Hl : l = true \/ In Opt_list argv)
        by (destruct Hlist as [H | [H | H]];
            [now left | discriminate | now right]).
      destruct pos; eapply IH; eauto.
Qed.

Lemma scan_flags (flags : list cli_arg) :
  Forall (fun a => is_flag a = true) flags ->
  forall rest l r pos,
    scan (flags ++ rest) l r pos []
    = scan rest (l || existsb is_list flags) (r || existsb is_remove flags)
        (match flags with [] => pos | _ :: _ => close pos end) [].
Proof.
  induction 1 as [|a flags Ha _ IH]; intros rest l r pos.
  - cbn. now rewrite !orb_false_r.
  - destruct a; try discriminate; cbn [app scan existsb is_list is_remove];
      rewrite IH; rewrite ?orb_false_l, ?orb_true_r, ?orb_true_l;
      destruct flags, pos; reflexivity.
Qed.

Lemma scan_paths (ps : list string) :
  forall rest l r acc,
    scan (map Path ps ++ rest) l r (Open acc) []
    = scan rest l r (Open (acc ++ ps)) [].
Proof.
  induction ps as [|p ps IH]; intros rest l r acc.
  - cbn. now rewrite app_nil_r.
  - cbn [map app scan]. now rewrite IH, <- app_assoc.
Qed.

(** The parser accepts options around one block of paths. *)
Lemma argparse_one_block (before after : list cli_arg) (ps : list string) :
  Forall (fun a => is_flag a = true) before ->
  Forall (fun a => is_flag a = true) after ->
  argparse (before ++ map Path ps ++ after)
  = Parsed (parse_args (existsb is_list (before ++ after))
              (existsb is_remove (before ++ after)) ps).
Proof.
  intros Hb Ha. unfold argparse. rewrite (scan_flags before Hb).
  cbn [orb]. rewrite !existsb_app.
  replace (match before with [] => Unseen | _ :: _ => close Unseen end)
    with Unseen by now destruct before.
  destruct ps as [|p ps].
  - cbn [map app]. rewrite <- (app_nil_r after) at 1.
    rewrite (scan_flags after Ha). cbn [scan].
    now destruct after.
  - cbn [map app scan]. rewrite scan_paths.
    rewrite <- (app_nil_r after) at 1.
    rewrite (scan_flags after Ha). cbn [scan app].
    now destruct after.
Qed.

(** C6 (as stated, refuted): two command lines with the list option on
    which nothing is listed.  With [b.py] after the option the parser has
    already matched [paths] against [a.py] and ends the run with exit code
    2; with the help option after it the help action writes the help text
    and exits. *)
Lemma list_option_does_not_always_list :
  run_main project "usage: checkpy.py [-h] [-l] [-r] [paths ...]"
    [Path "a.py"; Opt_list; Path "b.py"] initial
  = (Exit 2, initial)
  /\ run_main project "usage: checkpy.py [-h] [-l] [-r] [paths ...]"
       [Opt_list; Opt_help] initial
     = (Exit 0,
        printed initial ["usage: checkpy.py [-h] [-l] [-r] [paths ...]"]).
Proof. split; reflexivity. Qed.

(** C6 (amended): on every command line with the list option that the
    parser accepts, whatever other options and paths it holds, the run
    writes the listing of the registry (a heading, then one chunk per entry
    with its code and its description) and exits with code 0; no child
    process is started and the registry keeps its entries. *)
Theorem list_option_lists_when_parsed
    (E : env) (help_text : string) (argv : list cli_arg) (ns : Namespace)
    (s : state) :
  argparse argv = Parsed ns ->
  In Opt_list argv ->
  run_main E help_text argv s = (Exit 0, printed s (listing (registry s)))
  /\ spawned (snd (run_main E help_text argv s)) = spawned s
  /\ registry (snd (run_main E help_text argv s)) = registry s.
Proof.
  intros Hparsed Hlist. unfold run_main. rewrite Hparsed.
  destruct (scan_parsed_list argv _ _ _ _ ns Hparsed (or_intror Hlist))
    as (r & ps & ->).
  rewrite main_list_option. repeat split.
Qed.

Lemma list_option_witness :
  argparse [Opt_remove; Path "a.py"; Path "b.py"; Opt_list]
  = Parsed (parse_args true true ["a.py"; "b.py"])
  /\ run_main first_pylint_fails ""
       [Opt_remove; Path "a.py"; Path "b.py"; Opt_list] initial
     = (Exit 0, printed initial (listing IGNORE_PEP)).
Proof.
  split; [reflexivity|].
  refine (proj1 (list_option_lists_when_parsed first_pylint_fails ""
                   [Opt_remove; Path "a.py"; Path "b.py"; Opt_list]
                   (parse_args true true ["a.py"; "b.py"]) initial
                   eq_refl _)).
  cbn. tauto.
Defined.

Lemma check_sanity_run (E : env) (s : state) :
  check_sanity E s
  = if tools_found E then (Ret tt, s)
    else (Exit 1, printed s [IMPORT_ERROR_MSG E ++ PyStr.nl]).
Proof.
  unfold check_sanity, tools_found.
  destruct (find_executable E (PYLINT E)) as [p1|].
  - rewrite bind_ret.
    destruct (find_executable E "pycodestyle") as [p2|]; reflexivity.
  - destruct (find_executable E "pycodestyle"); reflexivity.
Qed.

(** With neither option given, [main] is the sanity check, then [check],
    then [sys.exit] with what [check] returned. *)
Lemma main_plain (E : env) (positionals : list string) (s : state) :
  main E (parse_args false false positionals) s
  = bind (check_sanity E)
      (fun _ =>
         bind (if (List.length positionals =? 0)%nat then check E None
               else check E (Some positionals))
           sys_exit) s.
Proof. reflexivity. Qed.

(** The remove option makes [main] call [split] on [True]. *)
Lemma main_remove_option (E : env) (positionals : list string) (s : state) :
  main E (parse_args false true positionals) s
  = (Raise (AttributeError "'bool' object has no attribute 'split'"), s).
Proof. reflexivity. Qed.

(** C7: [check_sanity] exits with code 1 after printing the installation
    guidance when one of the two executables is not found, and otherwise
    returns with nothing changed; a run without options then goes on to
    [check] and exits with its result.  When a tool is missing no run,
    whatever its options, starts a child process. *)
Theorem sanity_check_guards_the_checks (E : env) (s : state) :
  check_sanity E s
  = (if tools_found E then (Ret tt, s)
     else (Exit 1, printed s [IMPORT_ERROR_MSG E ++ PyStr.nl]))
  /\ (tools_found E = true <->
      find_executable E (PYLINT E) <> None
      /\ find_executable E "pycodestyle" <> None)
  /\ (forall positionals,
        main E (parse_args false false positionals) s
        = if tools_found E
          then bind (if (List.length positionals =? 0)%nat then check E None
                     else check E (Some positionals)) sys_exit s
          else (Exit 1, printed s [IMPORT_ERROR_MSG E ++ PyStr.nl]))
  /\ (forall list_given remove_given positionals,
        tools_found E = false ->
        spawned (snd (main E (parse_args list_given remove_given positionals)
                        s))
        = spawned s).
Proof.
  split; [apply check_sanity_run|]. split.
  { unfold tools_found.
    destruct (find_executable E (PYLINT E));
      destruct (find_executable E "pycodestyle"); split;
      try discriminate; try (intros [? ?]; congruence);
      intros; split; discriminate. }
  split.
  - intros positionals. rewrite main_plain. unfold bind at 1.
    rewrite check_sanity_run. destruct (tools_found E); reflexivity.
  - intros [|] remove_given positionals Hmissing.
    + now rewrite main_list_option.
    + destruct remove_given.
      * now rewrite main_remove_option.
      * rewrite main_plain. unfold bind at 1.
        rewrite check_sanity_run, Hmissing. reflexivity.
Qed.

Lemma sanity_check_witness :
  tools_found no_pycodestyle = false
  /\ spawned (snd (main no_pycodestyle (parse_args false false ["a.py"])
                     initial))
     = [].
Proof.
  split; [reflexivity|].
  exact (proj2 (proj2 (proj2
           (sanity_check_guards_the_checks no_pycodestyle initial)))
           false false ["a.py"] eq_refl).
Defined.

(** ** The remove option *)

(** C4 (the code on every command line with the remove option and without
    the list option): [main] ends with an uncaught [AttributeError], with
    nothing printed, nothing removed and no check run. *)
Theorem remove_option_raises
    (E : env) (positionals : list string) (s : state) :
  main E (parse_args false true positionals) s
  = (Raise (AttributeError "'bool' object has no attribute 'split'"), s).
Proof. apply main_remove_option. Qed.

(** C3 (the code at the failing input): asked to remove the unknown code
    [Z999], [main] raises before anything is printed; and the loop of lines
    201-209 itself, handed the pieces of the string, prints the error line
    and the listing and then exits with code 0, the [sys.exit(0)] of
    [list_pep_keys] coming before the [sys.exit(1)] of the handler. *)
Theorem remove_unknown_code_run (E : env) :
  main E (parse_args false true ["Z999"]) initial
  = (Raise (AttributeError "'bool' object has no attribute 'split'"), initial)
  /\ remove_loop (PyStr.split "," "Z999") initial
     = (Exit 0,
        printed initial
          ((("Error, key Z999 not found, these are the keys:" ++ PyStr.nl)
            ++ PyStr.nl) :: listing IGNORE_PEP)).
Proof.
  split; [apply main_remove_option | reflexivity].
Qed.

Lemma pop_present (k : string) (d : dict) :
  contains d k = true ->
  exists d', pop k d = Some d' /\ S (List.length d') = List.length d.
Proof.
  induction d as [|[k' v] d IH]; simpl; [discriminate|].
  destruct (String.eqb k' k); simpl.
  - intros _. now exists d.
  - intros H. destruct (IH H) as [d' [-> Hlen]].
    exists ((k', v) :: d'). simpl. now rewrite Hlen.
Qed.

Lemma pop_absent (k : string) (d : dict) :
  contains d k = false -> pop k d = None.
Proof.
  induction d as [|[k' v] d IH]; simpl; [reflexivity|].
  destruct (String.eqb k' k); simpl; [discriminate|].
  intros H. now rewrite (IH H).
Qed.

(** C5 (as stated, refuted): the registry the module starts with does not
    have 11 entries, and the removal loop run on [E501,W391] does not leave
    9. *)
Lemma registry_has_not_eleven_entries :
  ~ (List.length IGNORE_PEP = 11%nat
     /\ exists s', remove_loop (PyStr.split "," "E501,W391") initial
                   = (Ret tt, s')
                   /\ List.length (registry s') = 9%nat).
Proof.
  intros [H _]. vm_compute in H. discriminate.
Qed.

(** C5 (amended): the registry starts with the 10 entries [E121] to [W391];
    the removal loop run on the pieces of [E501,W391] ends without error
    and leaves the other 8; and popping a code that is present makes the
    registry exactly one entry shorter. *)
Theorem registry_removal :
  keys IGNORE_PEP
  = ["E121"; "E122"; "E123"; "E125"; "E126"; "E127"; "E128"; "E302";
     "E501"; "W391"]
  /\ List.length IGNORE_PEP = 10%nat
  /\ (exists s',
        remove_loop (PyStr.split "," "E501,W391") initial = (Ret tt, s')
        /\ keys (registry s')
           = ["E121"; "E122"; "E123"; "E125"; "E126"; "E127"; "E128"; "E302"]
        /\ List.length (registry s') = 8%nat)
  /\ (forall k d,
        contains d k = true ->
        exists d', pop k d = Some d' /\ S (List.length d') = List.length d).
Proof.
  split; [reflexivity|]. split; [reflexivity|]. split.
  - eexists. split; [vm_compute; reflexivity|]. split; reflexivity.
  - apply pop_present.
Qed.

Lemma registry_removal_witness :
  contains IGNORE_PEP "E501" = true
  /\ exists d', pop "E501" IGNORE_PEP = Some d'
                /\ S (List.length d') = List.length IGNORE_PEP.
Proof.
  split; [reflexivity|].
  exact (proj2 (proj2 (proj2 registry_removal)) "E501" IGNORE_PEP eq_refl).
Defined.

(** ** Collecting the files *)

Lemma walk_unfold (top : string) (es : list (string * node)) :
  walk top (Dir es)
  = (top, dirnames es, filenames es)
    :: flat_map (fun e => walk (PyStr.path_join top (fst e)) (snd e)) es.
Proof.
  cbn [walk]. f_equal.
  induction es as [|[name d] es IH]; [reflexivity|].
  cbn [flat_map fst snd]. rewrite <- IH.
  destruct d; reflexivity.
Qed.

Lemma In_filenames (f : string) (es : list (string * node)) :
  In f (filenames es) <-> In (f, File) es.
Proof.
  unfold filenames. rewrite in_map_iff. split.
  - intros [[f' d] [Hf Hin]]. apply filter_In in Hin as [Hin Hd].
    simpl in *. subst f'. destruct d; [assumption | discriminate].
  - intros Hin. exists (f, File). split; [reflexivity|].
    apply filter_In. now split.
Qed.

Lemma In_walk (n : node) :
  forall top it,
    In it (walk top n) <->
    exists dpath des,
      beneath top n dpath des /\ it = (dpath, dirnames des, filenames des).
Proof.
  induction n as [|es IH] using node_rect'; intros top it.
  - split; [intros [] | intros (dpath & des & Hb & _); inversion Hb].
  - rewrite walk_unfold. cbn [In]. rewrite in_flat_map. split.
    + intros [<- | [[name d] [Hin Hit]]].
      * exists top, es. split; [constructor | reflexivity].
      * rewrite Forall_forall in IH. cbn [fst snd] in Hit.
        apply (IH (name, d) Hin) in Hit as (dpath & des & Hb & ->).
        cbn [snd] in Hb. destruct d as [|es']; [inversion Hb|].
        exists dpath, des. split; [|reflexivity].
        eapply beneath_sub; eassumption.
    + intros (dpath & des & Hb & ->). inversion Hb; subst.
      * now left.
      * right. exists (name, Dir es'). split; [assumption|].
        rewrite Forall_forall in IH. apply (IH (name, Dir es')); [assumption|].
        cbn [fst snd]. now exists dpath, des.
Qed.

Lemma In_py_files (x : string) (items : list walk_item) :
  In x (py_files items) <->
  exists dpath ds files f,
    In (dpath, ds, files) items /\ In f files
    /\ PyStr.endswith f ".py" = true /\ x = dpath ++ PyStr.sep ++ f.
Proof.
  unfold py_files. rewrite in_flat_map. split.
  - intros [[[dpath ds] files] [Hin Hx]].
    apply in_map_iff in Hx as [f [<- Hf]].
    apply filter_In in Hf as [Hf Hpy].
    now exists dpath, ds, files, f.
  - intros (dpath & ds & files & f & Hin & Hf & Hpy & ->).
    exists (dpath, ds, files). split; [assumption|].
    apply in_map_iff. exists f. split; [reflexivity|].
    apply filter_In. now split.
Qed.

Lemma collect_flat_map (E : env) (ps : list string) :
  forall filelist,
    collect E ps filelist = (filelist ++ flat_map (candidate E) ps)%list.
Proof.
  induction ps as [|p ps IH]; intros filelist; cbn [collect flat_map].
  - now rewrite app_nil_r.
  - now rewrite IH, app_assoc.
Qed.

(** C8: the file list resolved from candidate paths is the concatenation,
    in order, of what each candidate contributes: the candidate itself when
    it is a file whose name ends in [.py]; for a directory, exactly the
    paths [dpath/f] of the files [f] ending in [.py] in the directories at
    or below it; nothing for any other candidate.  Resolving never fails,
    [check] always returns, and a candidate that contributes nothing can be
    dropped from the list without changing the result. *)
Theorem candidates_are_files_directories_or_skipped (E : env) :
  (forall ps, resolve E (Some ps) = flat_map (candidate E) ps)
  /\ (forall ps s, exists v, fst (check E (Some ps) s) = Ret v)
  /\ (forall p,
        isfile E p = true -> PyStr.endswith p ".py" = true ->
        candidate E p = [p])
  /\ (forall p es,
        fs E p = Some (Dir es) ->
        forall x,
          In x (candidate E p) <->
          exists dpath des f,
            beneath p (Dir es) dpath des /\ In (f, File) des
            /\ PyStr.endswith f ".py" = true /\ x = dpath ++ "/" ++ f)
  /\ (forall p,
        isfile E p && PyStr.endswith p ".py" = false ->
        isdir E p = false ->
        candidate E p = [])
  /\ (forall ps p qs,
        candidate E p = [] ->
        resolve E (Some (List.app ps (p :: qs)))
        = resolve E (Some (List.app ps qs))).
Proof.
  assert (Hres : forall ps, resolve E (Some ps) = flat_map (candidate E) ps).
  { intros ps. cbn [resolve]. now rewrite collect_flat_map. }
  split; [exact Hres|]. split.
  { intros ps s. destruct (check_run E (Some ps) s) as [out ->].
    eexists. reflexivity. }
  split.
  { intros p Hf Hpy. unfold candidate. now rewrite Hf, Hpy. }
  split.
  { intros p es Hp x. unfold candidate, isfile, isdir, os_walk.
    rewrite Hp. cbn [andb]. rewrite In_py_files. split.
    - intros (dpath & ds & files & f & Hin & Hf & Hpy & ->).
      apply In_walk in Hin as (dpath' & des & Hb & Heq).
      inversion Heq; subst. exists dpath', des, f.
      repeat split; try assumption. now apply In_filenames.
    - intros (dpath & des & f & Hb & Hf & Hpy & ->).
      exists dpath, (dirnames des), (filenames des), f.
      repeat split; try assumption.
      + apply In_walk. now exists dpath, des.
      + now apply In_filenames. }
  split.
  { intros p Hf Hd. unfold candidate. now rewrite Hf, Hd. }
  intros ps p qs Hnil. rewrite !Hres, !flat_map_app. cbn [flat_map].
  now rewrite Hnil.
Qed.

Lemma candidates_witness :
  candidate project "a.py" = ["a.py"]
  /\ (In "pkg/sub/n.py" (candidate project "pkg") <->
      exists dpath des f,
        beneath "pkg" (Dir pkg_entries) dpath des /\ In (f, File) des
        /\ PyStr.endswith f ".py" = true /\ "pkg/sub/n.py" = dpath ++ "/" ++ f)
  /\ candidate project "notes.txt" = []
  /\ resolve project (Some (List.app ["a.py"] ("notes.txt" :: ["pkg"])))
     = resolve project (Some (List.app ["a.py"] ["pkg"])).
Proof.
  pose proof (candidates_are_files_directories_or_skipped project)
    as (_ & _ & Hfile & Hdir & Hskip & Hdrop).
  split; [exact (Hfile "a.py" eq_refl eq_refl)|].
  split; [exact (Hdir "pkg" pkg_entries eq_refl "pkg/sub/n.py")|].
  split; [exact (Hskip "notes.txt" eq_refl eq_refl)|].
  exact (Hdrop ["a.py"] "notes.txt" ["pkg"]
           (Hskip "notes.txt" eq_refl eq_refl)).
Defined.

(** ** Facts about strings *)

Lemma length_append (a b : string) :
  String.length (a ++ b) = (String.length a + String.length b)%nat.
Proof. induction a as [|c a IH]; simpl; [reflexivity | now rewrite IH]. Qed.

Lemma append_assoc (a b c : string) : (a ++ b) ++ c = a ++ b ++ c.
Proof. induction a as [|x a IH]; simpl; [reflexivity | now rewrite IH]. Qed.

Lemma append_nil_r (a : string) : a ++ "" = a.
Proof. induction a as [|x a IH]; simpl; [reflexivity | now rewrite IH]. Qed.

Lemma substring_skip (a f : string) (n m : nat) :
  substring (String.length a + n) m (a ++ f) = substring n m f.
Proof. induction a as [|c a IH]; simpl; [reflexivity | exact IH]. Qed.

Lemma endswith_app (a f suffix : string) :
  PyStr.endswith f suffix = true -> PyStr.endswith (a ++ f) suffix = true.
Proof.
  unfold PyStr.endswith. intros H.
  apply andb_true_iff in H as [Hle Heq]. apply Nat.leb_le in Hle.
  apply andb_true_iff. split.
  - apply Nat.leb_le. rewrite length_append. lia.
  - rewrite length_append.
    replace (String.length a + String.length f - String.length suffix)%nat
      with (String.length a
            + (String.length f - String.length suffix))%nat by lia.
    now rewrite substring_skip.
Qed.

Lemma prefix_refl (a : string) : String.prefix a a = true.
Proof.
  induction a as [|c a IH]; simpl; [reflexivity|].
  now destruct (ascii_dec c c).
Qed.

Lemma prefix_app (a b : string) : String.prefix a (a ++ b) = true.
Proof.
  induction a as [|c a IH]; simpl; [now destruct b|].
  now destruct (ascii_dec c c).
Qed.

Lemma prefix_trans (a : string) :
  forall b c,
    String.prefix a b = true -> String.prefix b c = true ->
    String.prefix a c = true.
Proof.
  induction a as [|x a IH]; intros b c Hab Hbc.
  - now destruct c.
  - destruct b as [|y b]; [discriminate|]. destruct c as [|z c];
      [discriminate|]. simpl in *.
    destruct (ascii_dec x y); [subst y | discriminate].
    destruct (ascii_dec x z); [|discriminate].
    eapply IH; eassumption.
Qed.

Lemma prefix_path_join (top name : string) :
  String.prefix top (PyStr.path_join top name) = true.
Proof.
  unfold PyStr.path_join. destruct (String.eqb_spec top "").
  - subst top. now destruct name.
  - destruct (PyStr.endswith top PyStr.sep); apply prefix_app.
Qed.

(** ** More on the collected files *)

Lemma beneath_prefix (top : string) (n : node) (dpath : string)
    (des : list (string * node)) :
  beneath top n dpath des -> String.prefix top dpath = true.
Proof.
  induction 1 as [top es | top es name es' dpath des _ _ IH].
  - apply prefix_refl.
  - eapply prefix_trans; [apply prefix_path_join | exact IH].
Qed.

Lemma py_files_walk_spec (top : string) (es : list (string * node))
    (x : string) :
  In x (py_files (walk top (Dir es))) <->
  exists dpath des f,
    beneath top (Dir es) dpath des /\ In (f, File) des
    /\ PyStr.endswith f ".py" = true /\ x = dpath ++ "/" ++ f.
Proof.
  rewrite In_py_files. split.
  - intros (dpath & ds & files & f & Hin & Hf & Hpy & ->).
    apply In_walk in Hin as (dpath' & des & Hb & Heq).
    inversion Heq; subst. exists dpath', des, f.
    repeat split; try assumption. now apply In_filenames.
  - intros (dpath & des & f & Hb & Hf & Hpy & ->).
    exists dpath, (dirnames des), (filenames des), f.
    repeat split; try assumption.
    + apply In_walk. now exists dpath, des.
    + now apply In_filenames.
Qed.

Lemma py_files_end_in_py (items : list walk_item) :
  Forall (fun x => PyStr.endswith x ".py" = true) (py_files items).
Proof.
  apply Forall_forall. intros x Hx.
  apply In_py_files in Hx as (dpath & ds & files & f & _ & _ & Hpy & ->).
  now apply endswith_app, endswith_app.
Qed.

Lemma os_walk_prefix (E : env) (top : string) :
  Forall (fun x => String.prefix top x = true) (py_files (os_walk E top)).
Proof.
  apply Forall_forall. intros x Hx. unfold os_walk in Hx.
  destruct (fs E top) as [[|es]|]; try contradiction.
  apply py_files_walk_spec in Hx as (dpath & des & f & Hb & _ & _ & ->).
  eapply prefix_trans; [eapply beneath_prefix; eassumption | apply prefix_app].
Qed.

Lemma candidate_prefix (E : env) (p : string) :
  Forall (fun x => String.prefix p x = true) (candidate E p).
Proof.
  unfold candidate.
  destruct (isfile E p && PyStr.endswith p ".py").
  - constructor; [apply prefix_refl | constructor].
  - destruct (isdir E p); [apply os_walk_prefix | constructor].
Qed.

Lemma candidate_end_in_py (E : env) (p : string) :
  Forall (fun x => PyStr.endswith x ".py" = true) (candidate E p).
Proof.
  unfold candidate.
  destruct (isfile E p && PyStr.endswith p ".py") eqn:Hp.
  - apply andb_true_iff in Hp as [_ Hpy]. constructor; [exact Hpy|constructor].
  - destruct (isdir E p); [apply py_files_end_in_py | constructor].
Qed.

Lemma resolve_some (E : env) (ps : list string) :
  resolve E (Some ps) = flat_map (candidate E) ps.
Proof. cbn [resolve]. now rewrite collect_flat_map. Qed.

(** X1: without paths the file list is what a walk of the current directory
    gives: exactly the paths [dpath/f] of the files [f] ending in [.py] in
    the directories at or below it. *)
Theorem default_walks_current_directory
    (E : env) (es : list (string * node)) (x : string) :
  fs E (getcwd E) = Some (Dir es) ->
  (In x (resolve E None) <->
   exists dpath des f,
     beneath (getcwd E) (Dir es) dpath des /\ In (f, File) des
     /\ PyStr.endswith f ".py" = true /\ x = dpath ++ "/" ++ f).
Proof.
  intros Hcwd. cbn [resolve]. unfold os_walk. rewrite Hcwd.
  apply py_files_walk_spec.
Qed.

Lemma default_walk_witness :
  fs project_from_inside (getcwd project_from_inside)
  = Some (Dir pkg_entries)
  /\ (In "/home/dev/pkg/sub/n.py" (resolve project_from_inside None) <->
      exists dpath des f,
        beneath "/home/dev/pkg" (Dir pkg_entries) dpath des
        /\ In (f, File) des /\ PyStr.endswith f ".py" = true
        /\ "/home/dev/pkg/sub/n.py" = dpath ++ "/" ++ f).
Proof.
  split; [reflexivity|].
  exact (default_walks_current_directory project_from_inside pkg_entries
           "/home/dev/pkg/sub/n.py" eq_refl).
Defined.

(** X2: every path of a resolved file list ends in [.py], whether the list
    comes from candidate paths or from the walk of the current directory. *)
Theorem resolved_files_end_in_py (E : env) (paths : option (list string)) :
  Forall (fun x => PyStr.endswith x ".py" = true) (resolve E paths).
Proof.
  destruct paths as [ps|].
  - rewrite resolve_some. apply Forall_forall. intros x Hx.
    apply in_flat_map in Hx as [p [_ Hx]].
    pose proof (candidate_end_in_py E p) as H.
    rewrite Forall_forall in H. now apply H.
  - cbn [resolve]. apply py_files_end_in_py.
Qed.

(** X3: every path of a resolved file list starts with the candidate it was
    found under, exactly as the candidate was given; without candidates it
    starts with the current directory. *)
Theorem resolved_files_lie_under_candidates (E : env) :
  (forall ps,
     Forall (fun x => existsb (fun p => String.prefix p x) ps = true)
       (resolve E (Some ps)))
  /\ Forall (fun x => String.prefix (getcwd E) x = true) (resolve E None).
Proof.
  split.
  - intros ps. rewrite resolve_some. apply Forall_forall. intros x Hx.
    apply in_flat_map in Hx as [p [Hp Hx]].
    apply existsb_exists. exists p. split; [assumption|].
    pose proof (candidate_prefix E p) as H.
    rewrite Forall_forall in H. now apply H.
  - cbn [resolve]. apply os_walk_prefix.
Qed.

(** ** The report of the check loop *)

Lemma tally_word (res rescount : Z) :
  fst (tally res rescount) = status_word res.
Proof. unfold tally, status_word. now destruct (res =? 0)%Z. Qed.

(** The loop, with everything it writes. *)
Lemma check_loop_exact (E : env) (pl pc : string) (filelist : list string) :
  forall rescount s,
    check_loop E pl pc filelist rescount s
    = (Ret (loop_value E pl pc (List.length (spawned s)) filelist rescount),
       started
         (printed s (loop_output E pl pc (List.length (spawned s)) filelist))
         (loop_cmds pl pc filelist)).
Proof.
  induction filelist as [|myfile rest IH]; intros rescount s.
  - cbn [check_loop loop_value loop_cmds loop_output flat_map].
    unfold ret, started. rewrite printed_nil. cbn.
    rewrite app_nil_r. now destruct s.
  - cbn [check_loop]. rewrite bind_write, bind_call.
    cbn [printed started spawned stdout registry].
    destruct (tally (call E (List.length (spawned s))
                       (pl ++ " " ++ myfile)) 0) as [r1 c1] eqn:T1.
    rewrite !bind_write, bind_call.
    cbn [printed started spawned stdout registry].
    rewrite length_app, Nat.add_1_r. cbn [List.length].
    destruct (tally (call E (S (List.length (spawned s)))
                       (pc ++ " " ++ myfile)) c1) as [r2 c2] eqn:T2.
    rewrite bind_write, IH.
    cbn [printed started spawned stdout registry
         loop_value loop_cmds loop_output flat_map].
    rewrite !length_app. cbn [List.length].
    replace (List.length (spawned s) + 1 + 1)%nat
      with (S (S (List.length (spawned s)))) by lia.
    pose proof (tally_word (call E (List.length (spawned s))
                              (pl ++ " " ++ myfile)) 0) as W1.
    pose proof (tally_word (call E (S (List.length (spawned s)))
                              (pc ++ " " ++ myfile)) c1) as W2.
    rewrite T1 in W1. rewrite T2 in W2. cbn [fst] in W1, W2.
    subst r1 r2. f_equal.
    + f_equal. f_equal. unfold failures. rewrite T1. cbn [snd].
      now rewrite T2.
    + unfold started, printed. cbn [stdout registry spawned].
      f_equal; rewrite <- !app_assoc; reflexivity.
Qed.

Lemma check_exact (E : env) (paths : option (list string)) (s : state) :
  check E paths s
  = (Ret (last_file_failures E (mypylint E) (mypycodestyle (registry s))
            (List.length (spawned s)) (resolve E paths)),
     started
       (printed s
          (loop_output E (mypylint E) (mypycodestyle (registry s))
             (List.length (spawned s)) (resolve E paths)))
       (loop_cmds (mypylint E) (mypycodestyle (registry s))
          (resolve E paths))).
Proof.
  unfold check. rewrite bind_get_registry, check_loop_exact.
  now rewrite loop_value_spec.
Qed.

Lemma length_loop_cmds (pl pc : string) (filelist : list string) :
  List.length (loop_cmds pl pc filelist) = (2 * List.length filelist)%nat.
Proof.
  induction filelist as [|f rest IH]; cbn [loop_cmds flat_map List.length app];
    [reflexivity|].
  unfold loop_cmds in IH. rewrite IH. lia.
Qed.

Lemma length_loop_output (E : env) (pl pc : string) (filelist : list string) :
  forall n,
    List.length (loop_output E pl pc n filelist)
    = (4 * List.length filelist)%nat.
Proof.
  induction filelist as [|f rest IH]; intros n;
    cbn [loop_output List.length]; [reflexivity|].
  rewrite IH. lia.
Qed.

(** X4: [check] never ends the run and never touches the registry; it starts
    exactly two children and writes exactly four chunks for every file of
    the resolved list. *)
Theorem check_runs_two_children_per_file
    (E : env) (paths : option (list string)) (s : state) :
  (exists v, fst (check E paths s) = Ret v)
  /\ registry (snd (check E paths s)) = registry s
  /\ List.length (spawned (snd (check E paths s)))
     = (List.length (spawned s) + 2 * List.length (resolve E paths))%nat
  /\ List.length (stdout (snd (check E paths s)))
     = (List.length (stdout s) + 4 * List.length (resolve E paths))%nat.
Proof.
  rewrite check_exact. cbn [fst snd started printed registry spawned stdout].
  split; [eexists; reflexivity|]. split; [reflexivity|].
  rewrite !length_app, length_loop_cmds, length_loop_output. split; reflexivity.
Qed.

Lemma failed_status_line (res : Z) :
  is_failed_line ("pylint: " ++ status_word res ++ PyStr.nl)
  = negb (res =? 0)%Z
  /\ is_failed_line ("pycodestyle: " ++ status_word res ++ PyStr.nl)
     = negb (res =? 0)%Z.
Proof. unfold status_word. destruct (res =? 0)%Z; split; reflexivity. Qed.

Lemma failed_lines_total (E : env) (pl pc : string) (filelist : list string) :
  forall n,
    Z.of_nat (List.length (filter is_failed_line
                             (loop_output E pl pc n filelist)))
    = total_failures E pl pc n filelist.
Proof.
  induction filelist as [|f rest IH]; intros n; [reflexivity|].
  cbn [loop_output total_failures]. rewrite failures_unfold, <- IH.
  cbn [filter].
  replace (is_failed_line ("starting pylint, as " ++ pl ++ " " ++ f
                           ++ PyStr.nl)) with false by reflexivity.
  replace (is_failed_line ("starting pycodestyle, as " ++ pc))
    with false by reflexivity.
  rewrite (proj1 (failed_status_line _)), (proj2 (failed_status_line _)).
  set (tail := filter is_failed_line (loop_output E pl pc (S (S n)) rest)).
  destruct (call E n (pl ++ " " ++ f) =? 0)%Z;
    destruct (call E (S n) (pc ++ " " ++ f) =? 0)%Z;
    cbn [negb List.length]; rewrite ?Nat2Z.inj_succ; lia.
Qed.

(** X5: the report is complete where the result is not: the number of status
    lines saying FAILED that [check] writes is the number of failures over
    all files of the run. *)
Theorem report_counts_every_failure
    (E : env) (paths : option (list string)) (s : state) :
  exists out,
    stdout (snd (check E paths s)) = List.app (stdout s) out
    /\ Z.of_nat (List.length (filter is_failed_line out))
       = total_failures E (mypylint E) (mypycodestyle (registry s))
           (List.length (spawned s)) (resolve E paths).
Proof.
  rewrite check_exact. eexists. split; [reflexivity|].
  apply failed_lines_total.
Qed.

Lemma loop_value_bounds (E : env) (pl pc : string) (filelist : list string) :
  forall n rescount,
    (0 <= rescount)%Z ->
    (0 <= loop_value E pl pc n filelist rescount
     <= rescount + total_failures E pl pc n filelist)%Z.
Proof.
  induction filelist as [|f rest IH]; intros n rescount Hr;
    cbn [loop_value total_failures]; [lia|].
  pose proof (failures_range E pl pc n f) as Hf.
  specialize (IH (S (S n)) (failures E pl pc n f) (proj1 Hf)). lia.
Qed.

(** X6: the result of [check] never overstates: it lies between 0 and the
    number of failures over all files of the run, so a positive result
    means that some tool failed on some file; for a list of at most one
    file it is that number. *)
Theorem result_never_exceeds_failures
    (E : env) (paths : option (list string)) (s : state) :
  let pl := mypylint E in
  let pc := mypycodestyle (registry s) in
  let n := List.length (spawned s) in
  exists v,
    fst (check E paths s) = Ret v
    /\ (0 <= v <= total_failures E pl pc n (resolve E paths))%Z
    /\ ((List.length (resolve E paths) <= 1)%nat ->
        v = total_failures E pl pc n (resolve E paths)).
Proof.
  intros pl pc n. subst pl pc n. rewrite check_exact. cbn [fst]. eexists.
  split; [reflexivity|]. rewrite <- loop_value_spec. split.
  - apply loop_value_bounds with (rescount := 0%Z). lia.
  - intros Hlen. destruct (resolve E paths) as [|f [|g rest]];
      cbn [loop_value total_failures List.length] in *; lia.
Qed.

Lemma result_never_exceeds_witness :
  (List.length (resolve first_pylint_fails (Some ["a.py"])) <= 1)%nat
  /\ exists v,
       fst (check first_pylint_fails (Some ["a.py"]) initial) = Ret v
       /\ v = total_failures first_pylint_fails (mypylint first_pylint_fails)
                (mypycodestyle IGNORE_PEP) 0 ["a.py"].
Proof.
  split; [vm_compute; lia|].
  destruct (result_never_exceeds_failures first_pylint_fails
              (Some ["a.py"]) initial) as (v & Hv & _ & Heq).
  exists v. split; [exact Hv|]. apply Heq. vm_compute. lia.
Defined.

(** ** The outcomes of a run *)

Lemma last_file_failures_range (E : env) (pl pc : string) (n : nat)
    (filelist : list string) :
  (0 <= last_file_failures E pl pc n filelist <= 2)%Z.
Proof.
  unfold last_file_failures. destruct (rev filelist); [lia|].
  apply failures_range.
Qed.

Lemma started_nothing (s : state) : started (printed s []) [] = s.
Proof.
  unfold started. rewrite printed_nil. cbn. rewrite app_nil_r. now destruct s.
Qed.

(** X7: how [main] ends, by the options given: the list option wins and exits
    with 0; otherwise the remove option raises; otherwise a missing tool
    exits with 1; otherwise the exit code is the failure count of the last
    file resolved, from the positionals or, without any, from the current
    directory.  So a run never falls off the end of [main], and its exit
    code is 0, 1 or 2. *)
Theorem main_outcomes
    (E : env) (list_given remove_given : bool) (positionals : list string)
    (s : state) :
  let outcome :=
    fst (main E (parse_args list_given remove_given positionals) s) in
  outcome
  = (if list_given then Exit 0
     else if remove_given
          then Raise (AttributeError "'bool' object has no attribute 'split'")
          else if tools_found E
               then Exit (last_file_failures E (mypylint E)
                            (mypycodestyle (registry s))
                            (List.length (spawned s))
                            (resolve E (match positionals with
                                        | [] => None
                                        | _ :: _ => Some positionals
                                        end)))
               else Exit 1)
  /\ (outcome = Exit 0 \/ outcome = Exit 1 \/ outcome = Exit 2
      \/ outcome
         = Raise (AttributeError "'bool' object has no attribute 'split'")).
Proof.
  intros outcome. subst outcome.
  match goal with |- ?lhs = ?rhs /\ _ => assert (Hout : lhs = rhs) end.
  { destruct list_given; [now rewrite main_list_option|].
    destruct remove_given; [now rewrite main_remove_option|].
    rewrite main_plain. unfold bind at 1. rewrite check_sanity_run.
    destruct (tools_found E); [|reflexivity].
    unfold bind. destruct positionals; cbn [List.length Nat.eqb];
      now rewrite check_exact. }
  split; [exact Hout|]. rewrite Hout.
  destruct list_given; [auto|]. destruct remove_given; [auto|].
  destruct (tools_found E); [|auto].
  assert (Hv : forall v : Z, (0 <= v <= 2)%Z -> v = 0%Z \/ v = 1%Z \/ v = 2%Z)
    by (intros; lia).
  match goal with
  | |- Exit ?v = _ \/ _ =>
      destruct (Hv v (last_file_failures_range _ _ _ _ _)) as [H | [H | H]];
      rewrite H; auto
  end.
Qed.




(** X9: a run over candidates that all contribute nothing (paths that do not
    exist, files not ending in [.py]) exits with code 0 without a word and
    without starting a child. *)
Theorem nothing_to_check_exits_zero
    (E : env) (p : string) (ps : list string) (s : state) :
  tools_found E = true ->
  Forall (fun q => candidate E q = []) (p :: ps) ->
  main E (parse_args false false (p :: ps)) s = (Exit 0, s).
Proof.
  intros Hfound Hnone. rewrite main_plain. unfold bind at 1.
  rewrite check_sanity_run, Hfound. cbn [List.length Nat.eqb].
  unfold bind. rewrite check_exact.
  assert (Hres : resolve E (Some (p :: ps)) = []).
  { rewrite resolve_some. induction Hnone as [|q qs Hq _ IH];
      [reflexivity|]. cbn [flat_map]. now rewrite Hq, IH. }
  rewrite Hres. cbn [last_file_failures rev loop_output loop_cmds flat_map].
  now rewrite started_nothing.
Qed.

Lemma nothing_to_check_witness :
  tools_found project = true
  /\ Forall (fun q => candidate project q = []) ["notes.txt"; "missing"]
  /\ main project (parse_args false false ["notes.txt"; "missing"]) initial
     = (Exit 0, initial).
Proof.
  assert (H : Forall (fun q => candidate project q = [])
                ["notes.txt"; "missing"])
    by (repeat constructor).
  split; [reflexivity|]. split; [exact H|].
  exact (nothing_to_check_exits_zero project "notes.txt" ["missing"] initial
           eq_refl H).
Defined.

(** ** Removing keys *)

Lemma contains_In (d : dict) (k : string) :
  contains d k = true <-> In k (keys d).
Proof.
  induction d as [|[k' v] d IH]; simpl; [split; [discriminate | tauto]|].
  rewrite orb_true_iff, IH. destruct (String.eqb_spec k' k); split;
    intros [H|H]; auto; discriminate.
Qed.

(** A successful [pop] cuts exactly one entry, the one of the key, out of
    the dictionary. *)
Lemma pop_split (k : string) (d d' : dict) :
  pop k d = Some d' ->
  exists l1 v l2,
    d = (l1 ++ (k, v) :: l2)%list /\ d' = (l1 ++ l2)%list
    /\ contains l1 k = false.
Proof.
  revert d'. induction d as [|[k' v] d IH]; intros d' H; simpl in H;
    [discriminate|].
  destruct (String.eqb_spec k' k) as [->|Hne].
  - injection H as <-. now exists [], v, d.
  - destruct (pop k d) as [r|]; [|discriminate]. injection H as <-.
    destruct (IH r eq_refl) as (l1 & v' & l2 & -> & -> & Hl1).
    exists ((k', v) :: l1), v', l2. repeat split. simpl.
    rewrite Hl1. now apply String.eqb_neq in Hne as ->.
Qed.

Lemma without_cons (ks : list string) (kv : string * string) (d : dict) :
  without ks (kv :: d)
  = if existsb (String.eqb (fst kv)) ks then without ks d
    else kv :: without ks d.
Proof.
  unfold without. cbn [filter].
  now destruct (existsb (String.eqb (fst kv)) ks).
Qed.

Lemma without_nil (d : dict) : without [] d = d.
Proof.
  induction d as [|kv d IH]; [reflexivity|].
  rewrite without_cons. cbn [existsb]. now rewrite IH.
Qed.

Lemma without_absent (k : string) (d : dict) :
  ~ In k (keys d) -> without [k] d = d.
Proof.
  induction d as [|[k' v] d IH]; intros H; [reflexivity|].
  rewrite without_cons. cbn [existsb fst keys map In] in *.
  destruct (String.eqb_spec k' k) as [->|Hne]; [tauto|].
  cbn [orb]. rewrite IH; tauto.
Qed.

Lemma pop_without (k : string) (d : dict) :
  NoDup (keys d) -> contains d k = true -> pop k d = Some (without [k] d).
Proof.
  induction d as [|[k' v] d IH]; intros Hnd Hk; [discriminate|].
  inversion Hnd as [|? ? Hnot Hnd']; subst.
  rewrite without_cons. cbn [pop contains existsb fst] in *.
  destruct (String.eqb_spec k' k) as [->|Hne]; cbn [orb] in *.
  - f_equal. symmetry. now apply without_absent.
  - now rewrite (IH Hnd' Hk).
Qed.

Lemma without_without (ks1 ks2 : list string) (d : dict) :
  without ks2 (without ks1 d) = without (ks1 ++ ks2)%list d.
Proof.
  induction d as [|kv d IH]; [reflexivity|].
  rewrite !without_cons, existsb_app.
  destruct (existsb (String.eqb (fst kv)) ks1); cbn [orb]; [exact IH|].
  rewrite without_cons.
  destruct (existsb (String.eqb (fst kv)) ks2); now rewrite IH.
Qed.

Lemma contains_without (ks : list string) (d : dict) (k : string) :
  contains (without ks d) k
  = contains d k && negb (existsb (String.eqb k) ks).
Proof.
  induction d as [|[k' v] d IH]; [reflexivity|].
  rewrite without_cons. cbn [fst contains].
  destruct (String.eqb_spec k' k) as [->|Hne]; cbn [orb].
  - destruct (existsb (String.eqb k) ks); cbn [negb]; [rewrite IH|].
    + now rewrite andb_false_r.
    + cbn [contains]. now rewrite String.eqb_refl.
  - destruct (existsb (String.eqb k') ks); [exact IH|].
    cbn [contains]. apply String.eqb_neq in Hne as ->. exact IH.
Qed.

Lemma In_keys_without (ks : list string) (d : dict) (k : string) :
  In k (keys (without ks d)) -> In k (keys d).
Proof.
  intros H. apply contains_In in H. rewrite contains_without in H.
  apply andb_true_iff in H as [H _]. now apply contains_In.
Qed.

Lemma NoDup_keys_without (ks : list string) (d : dict) :
  NoDup (keys d) -> NoDup (keys (without ks d)).
Proof.
  induction d as [|[k v] d IH]; intros Hnd; [constructor|].
  inversion Hnd as [|? ? Hnot Hnd']; subst.
  rewrite without_cons. cbn [fst].
  destruct (existsb (String.eqb k) ks); [now apply IH|].
  cbn [keys map fst]. constructor; [|now apply IH].
  intros Hin. apply Hnot. now apply In_keys_without in Hin.
Qed.

Lemma existsb_eqb_In (k : string) (ks : list string) :
  existsb (String.eqb k) ks = true <-> In k ks.
Proof.
  rewrite existsb_exists. split.
  - intros [x [Hx Heq]]. now apply String.eqb_eq in Heq as ->.
  - intros H. exists k. split; [assumption | apply String.eqb_refl].
Qed.

Lemma bind_ext {A B} (m : M A) (f g : A -> M B) (s : state) :
  (forall a s', f a s' = g a s') -> bind m f s = bind m g s.
Proof.
  intros H. unfold bind.
  destruct (m s) as [[a|c|e] s']; [apply H | reflexivity..].
Qed.

Lemma for_each_app {A} (l1 l2 : list A) (body : A -> M unit) (s : state) :
  for_each (l1 ++ l2)%list body s
  = bind (for_each l1 body) (fun _ => for_each l2 body) s.
Proof.
  revert s. induction l1 as [|x l1 IH]; intros s; cbn [for_each app].
  - now rewrite bind_ret.
  - rewrite bind_assoc. apply bind_ext. intros _ s'. apply IH.
Qed.

(** X10: an absent key ends the run in [list_pep_keys]: the error line and the
    listing are printed, the exit code is 0 and the registry is as
    before. *)
Theorem remove_absent_key_exits_zero (k : string) (s : state) :
  contains (registry s) k = false ->
  remove_key k s
  = (Exit 0, printed s (not_found_line k :: listing (registry s))).
Proof.
  intros Habs. unfold remove_key.
  rewrite bind_get_registry, (pop_absent k _ Habs), bind_print.
  erewrite bind_exits by apply list_pep_keys_run.
  now rewrite printed_printed.
Qed.

Lemma remove_absent_key_witness :
  contains (registry initial) "Z999" = false
  /\ remove_key "Z999" initial
     = (Exit 0, printed initial (not_found_line "Z999" :: listing IGNORE_PEP)).
Proof.
  split; [reflexivity|].
  exact (remove_absent_key_exits_zero "Z999" initial eq_refl).
Defined.

Lemma remove_present_keys (ks : list string) :
  forall s,
    NoDup (keys (registry s)) -> NoDup ks ->
    Forall (fun k => contains (registry s) k = true) ks ->
    for_each ks remove_key s
    = (Ret tt,
       printed (with_registry s (without ks (registry s)))
         (map removing_line ks)).
Proof.
  induction ks as [|k ks IH]; intros s Hreg Hks Hpres.
  - cbn [for_each map]. rewrite without_nil, printed_nil.
    unfold ret. now destruct s.
  - inversion Hks as [|? ? Hnot Hks']; subst.
    inversion Hpres as [|? ? Hk Hpres']; subst.
    cbn [for_each]. unfold bind.
    rewrite (remove_key_present k s _ (pop_without k _ Hreg Hk)).
    rewrite IH; cbn [printed with_registry registry]; try assumption.
    + rewrite without_without. unfold printed, with_registry.
      cbn [stdout registry spawned map app]. f_equal. f_equal.
      now rewrite <- app_assoc.
    + now apply NoDup_keys_without.
    + apply Forall_forall. intros k' Hk'. rewrite contains_without.
      rewrite Forall_forall in Hpres'. rewrite (Hpres' k' Hk'). cbn.
      destruct (String.eqb_spec k' k) as [->|]; [contradiction | reflexivity].
Qed.

Lemma remove_key_absent (k : string) (s : state) :
  pop k (registry s) = None ->
  remove_key k s
  = (Exit 0, printed s (not_found_line k :: listing (registry s))).
Proof.
  intros Hpop. unfold remove_key. rewrite bind_get_registry, Hpop, bind_print.
  erewrite bind_exits by apply list_pep_keys_run.
  now rewrite printed_printed.
Qed.

Lemma IGNORE_PEP_keys_unique : NoDup (keys IGNORE_PEP).
Proof.
  cbn. repeat constructor; cbn; intuition discriminate.
Qed.

Lemma length_without (ks : list string) :
  forall d,
    NoDup (keys d) -> NoDup ks ->
    Forall (fun k => contains d k = true) ks ->
    (List.length (without ks d) + List.length ks)%nat = List.length d.
Proof.
  induction ks as [|k ks IH]; intros d Hd Hks Hpres.
  - rewrite without_nil. cbn. lia.
  - inversion Hks as [|? ? Hnot Hks']; subst.
    inversion Hpres as [|? ? Hk Hpres']; subst.
    change (k :: ks) with ([k] ++ ks)%list at 1.
    rewrite <- without_without.
    destruct (pop_present k d Hk) as (d' & Hpop & Hlen).
    rewrite (pop_without k d Hd Hk) in Hpop. injection Hpop as <-.
    cbn [List.length]. rewrite <- Hlen, <- (IH (without [k] d)); [lia | | |].
    + now apply NoDup_keys_without.
    + assumption.
    + apply Forall_forall. intros k' Hk'. rewrite contains_without.
      rewrite Forall_forall in Hpres'. rewrite (Hpres' k' Hk'). cbn.
      destruct (String.eqb_spec k' k) as [->|]; [contradiction | reflexivity].
Qed.

(** X11: with unique registry keys, a key list whose trimmed pieces are
    distinct and all present is removed in full: the loop returns, one
    line is printed per key, and the registry is left without exactly
    those entries, the others in their order. *)
Theorem remove_loop_removes_present_keys (pieces : list string) (s : state) :
  let ks := map PyStr.strip pieces in
  NoDup (keys (registry s)) ->
  NoDup ks ->
  Forall (fun k => contains (registry s) k = true) ks ->
  remove_loop pieces s
  = (Ret tt,
     printed (with_registry s (without ks (registry s)))
       (map removing_line ks))
  /\ (List.length (without ks (registry s)) + List.length pieces)%nat
     = List.length (registry s)
  /\ forall k,
       contains (without ks (registry s)) k
       = contains (registry s) k && negb (existsb (String.eqb k) ks).
Proof.
  intros ks Hreg Hks Hpres. split; [|split].
  - now apply remove_present_keys.
  - rewrite <- (length_without ks (registry s) Hreg Hks Hpres).
    subst ks. now rewrite length_map.
  - intros k. apply contains_without.
Qed.

Lemma remove_loop_present_witness :
  remove_loop (PyStr.split "," "E501, W391") initial
  = (Ret tt,
     printed (with_registry initial (without ["E501"; "W391"] IGNORE_PEP))
       [removing_line "E501"; removing_line "W391"]).
Proof.
  refine (proj1 (remove_loop_removes_present_keys
                   (PyStr.split "," "E501, W391") initial
                   IGNORE_PEP_keys_unique _ _)).
  - cbn. repeat constructor; cbn; intuition discriminate.
  - cbn. repeat constructor.
Defined.

(** X12: a key list fails at its first piece that is absent or repeats an
    earlier one: the run ends there with exit code 0, after the error line
    and the listing, and the keys before it stay removed. *)
Theorem failed_removal_keeps_earlier_removals
    (pieces ks : list string) (k : string) (rest : list string) (s : state) :
  map PyStr.strip pieces = (ks ++ k :: rest)%list ->
  NoDup (keys (registry s)) ->
  NoDup ks ->
  Forall (fun k' => contains (registry s) k' = true) ks ->
  contains (registry s) k = false \/ In k ks ->
  remove_loop pieces s
  = (Exit 0,
     printed (with_registry s (without ks (registry s)))
       (map removing_line ks
        ++ not_found_line k :: listing (without ks (registry s)))%list).
Proof.
  intros Hpieces Hreg Hks Hpres Hk. unfold remove_loop.
  rewrite Hpieces, for_each_app. unfold bind.
  rewrite (remove_present_keys ks s Hreg Hks Hpres).
  cbn [for_each]. apply bind_exits.
  rewrite remove_key_absent.
  - now rewrite printed_printed.
  - apply pop_absent. cbn [printed with_registry registry].
    rewrite contains_without. destruct Hk as [-> | Hin]; [reflexivity|].
    apply existsb_eqb_In in Hin as ->. cbn. apply andb_false_r.
Qed.

Lemma failed_removal_witness :
  remove_loop (PyStr.split "," "E501,E501,W391") initial
  = (Exit 0,
     printed (with_registry initial (without ["E501"] IGNORE_PEP))
       (removing_line "E501"
        :: not_found_line "E501" :: listing (without ["E501"] IGNORE_PEP))).
Proof.
  refine (failed_removal_keeps_earlier_removals
            (PyStr.split "," "E501,E501,W391") ["E501"] "E501" ["W391"]
            initial eq_refl IGNORE_PEP_keys_unique _ _ _).
  - repeat constructor. intros [].
  - repeat constructor.
  - right. now left.
Defined.

Lemma pop_shrinks (k : string) (d d' : dict) :
  pop k d = Some d' ->
  incl d' d
  /\ S (List.length d') = List.length d
  /\ (NoDup (keys d) -> NoDup (keys d')).
Proof.
  intros H. destruct (pop_split k d d' H) as (l1 & v & l2 & -> & -> & _).
  split; [|split].
  - intros x Hx. apply in_app_iff in Hx as [Hx|Hx]; apply in_app_iff;
      [now left | right; now right].
  - rewrite !length_app. cbn. lia.
  - unfold keys. rewrite !map_app. cbn [map fst]. apply NoDup_remove_1.
Qed.

Lemma remove_keys_invariant (ks : list string) :
  forall s,
    (fst (for_each ks remove_key s) = Ret tt
     \/ fst (for_each ks remove_key s) = Exit 0)
    /\ incl (registry (snd (for_each ks remove_key s))) (registry s)
    /\ (List.length (registry (snd (for_each ks remove_key s)))
        <= List.length (registry s))%nat
    /\ spawned (snd (for_each ks remove_key s)) = spawned s
    /\ (NoDup (keys (registry s)) ->
        NoDup (keys (registry (snd (for_each ks remove_key s))))).
Proof.
  induction ks as [|k ks IH]; intros s.
  - cbn. repeat split; auto. apply incl_refl.
  - cbn [for_each]. unfold bind.
    destruct (pop k (registry s)) as [d'|] eqn:Hpop.
    + rewrite (remove_key_present k s d' Hpop).
      destruct (pop_shrinks k _ _ Hpop) as (Hincl & Hlen & Hnd).
      destruct (IH (printed (with_registry s d')
                      [("Removing key:" ++ k ++ " from PEP ignore list"
                        ++ PyStr.nl) ++ PyStr.nl]))
        as (Hres & Hi & Hl & Hs & Hn).
      cbn [printed with_registry registry spawned] in Hi, Hl, Hs, Hn.
      repeat split.
      * exact Hres.
      * eapply incl_tran; eassumption.
      * lia.
      * exact Hs.
      * intros H. apply Hn, Hnd, H.
    + rewrite (remove_key_absent k s Hpop). cbn.
      repeat split; auto. apply incl_refl.
Qed.

(** X13: whatever the key list, the removal loop never adds to the registry and
    never starts a child: it returns or exits with code 0 (1 is never
    reached), the entries left are entries of the registry it began with,
    and keys that were unique stay unique. *)
Theorem remove_loop_only_shrinks_registry (pieces : list string) (s : state) :
  let run := remove_loop pieces s in
  (fst run = Ret tt \/ fst run = Exit 0)
  /\ incl (registry (snd run)) (registry s)
  /\ (List.length (registry (snd run)) <= List.length (registry s))%nat
  /\ spawned (snd run) = spawned s
  /\ (NoDup (keys (registry s)) -> NoDup (keys (registry (snd run)))).
Proof.
  intros run. subst run. unfold remove_loop. apply remove_keys_invariant.
Qed.

Lemma remove_loop_shrinks_witness :
  NoDup (keys (registry initial))
  /\ NoDup (keys (registry (snd (remove_loop (PyStr.split "," "E127,Q1")
                                   initial)))).
Proof.
  split; [exact IGNORE_PEP_keys_unique|].
  exact (proj2 (proj2 (proj2 (proj2
           (remove_loop_only_shrinks_registry (PyStr.split "," "E127,Q1")
              initial)))) IGNORE_PEP_keys_unique).
Defined.

(** ** Key lists *)

Lemma split_aux_free_prefix (c : ascii) (a : string) :
  forall rest cur,
    free_of c a = true ->
    PyStr.split_aux c (a ++ rest) cur = PyStr.split_aux c rest (cur ++ a).
Proof.
  induction a as [|x a IH]; intros rest cur Hfree.
  - cbn. now rewrite append_nil_r.
  - cbn [free_of] in Hfree. apply andb_true_iff in Hfree as [Hx Hfree].
    apply negb_true_iff in Hx. cbn [append PyStr.split_aux]. rewrite Hx.
    rewrite (IH rest _ Hfree), append_assoc. reflexivity.
Qed.

Lemma split_aux_free (c : ascii) (a cur : string) :
  free_of c a = true -> PyStr.split_aux c a cur = [cur ++ a].
Proof.
  intros Hfree. rewrite <- (append_nil_r a) at 1.
  now rewrite split_aux_free_prefix.
Qed.

Lemma split_aux_join (c : ascii) (pad : string) (ks : list string) :
  free_of c pad = true ->
  forall k cur,
    Forall (fun x => free_of c x = true) (k :: ks) ->
    PyStr.split_aux c (PyStr.join (String c pad) (k :: ks)) cur
    = (cur ++ k) :: map (fun x => pad ++ x) ks.
Proof.
  intros Hpad. induction ks as [|k2 ks IH]; intros k cur Hfree.
  - inversion Hfree; subst. cbn [PyStr.join map]. now apply split_aux_free.
  - inversion Hfree as [|? ? Hk Hrest]; subst.
    change (PyStr.join (String c pad) (k :: k2 :: ks))
      with (k ++ String c (pad ++ PyStr.join (String c pad) (k2 :: ks))).
    rewrite (split_aux_free_prefix c k _ _ Hk).
    cbn [PyStr.split_aux]. rewrite Ascii.eqb_refl.
    rewrite (split_aux_free_prefix c pad _ _ Hpad).
    rewrite (IH k2 _ Hrest). reflexivity.
Qed.

(** Writing a non-empty list of keys as a key list, separated by a comma
    or by a comma and a blank, and reading it back as the removal loop does
    gives the keys again, provided no key contains a comma or has white
    space at either end. *)
Lemma key_list_round_trip_lemma (k : string) (ks : list string) :
  Forall (fun x => free_of "," x = true /\ PyStr.strip x = x) (k :: ks) ->
  map PyStr.strip (PyStr.split "," (PyStr.join "," (k :: ks))) = k :: ks
  /\ map PyStr.strip (PyStr.split "," (PyStr.join ", " (k :: ks))) = k :: ks.
Proof.
  intros H.
  assert (Hfree : Forall (fun x => free_of "," x = true) (k :: ks))
    by (eapply Forall_impl; [|exact H]; now intros x [? _]).
  assert (Htrim : forall pad,
             (forall x, PyStr.strip (pad ++ x) = PyStr.strip x) ->
             map PyStr.strip (k :: map (fun x => pad ++ x) ks) = k :: ks).
  { intros pad Hpad. inversion H as [|? ? [_ Hk] Hks]; subst.
    cbn [map]. rewrite Hk. f_equal. rewrite map_map.
    clear - Hks Hpad. induction Hks as [|x l [_ Hx] _ IH]; [reflexivity|].
    cbn [map]. now rewrite Hpad, Hx, IH. }
  unfold PyStr.split. split.
  - rewrite (split_aux_join "," "" ks eq_refl k "" Hfree).
    apply Htrim. reflexivity.
  - rewrite (split_aux_join "," " " ks eq_refl k "" Hfree).
    apply Htrim. reflexivity.
Qed.

Lemma key_list_round_trip_witness :
  map PyStr.strip
    (PyStr.split "," (PyStr.join ", " ["E127"; "E501"; "W391"]))
  = ["E127"; "E501"; "W391"].
Proof.
  refine (proj2 (key_list_round_trip_lemma "E127" ["E501"; "W391"] _)).
  repeat constructor.
Defined.

Lemma without_all (ks : list string) (d : dict) :
  (forall kv, In kv d -> In (fst kv) ks) -> without ks d = [].
Proof.
  induction d as [|kv d IH]; intros H; [reflexivity|].
  rewrite without_cons.
  replace (existsb (String.eqb (fst kv)) ks) with true
    by (symmetry; apply existsb_eqb_In, H; now left).
  apply IH. intros kv' Hin. apply H. now right.
Qed.

(** X14: the value [check] puts after [--ignore=], the registry keys joined
    by commas, is a key list the removal loop takes in full: run on it (or
    on the same keys separated by a comma and a blank), the loop removes
    every entry, prints one line per key and returns with the registry
    empty, provided the registry is not empty, its keys are unique, and no
    key contains a comma or has white space at either end. *)
Theorem ignore_value_removes_whole_registry (s : state) :
  registry s <> [] ->
  NoDup (keys (registry s)) ->
  Forall (fun k => free_of "," k = true /\ PyStr.strip k = k)
    (keys (registry s)) ->
  remove_loop (PyStr.split "," (PyStr.join "," (keys (registry s)))) s
  = (Ret tt, printed (with_registry s []) (map removing_line
                                             (keys (registry s))))
  /\ remove_loop (PyStr.split "," (PyStr.join ", " (keys (registry s)))) s
     = (Ret tt, printed (with_registry s []) (map removing_line
                                                (keys (registry s)))).
Proof.
  intros Hne Hnd Hkeys.
  destruct (keys (registry s)) as [|k ks] eqn:Hk.
  { destruct (registry s); [contradiction | discriminate]. }
  destruct (key_list_round_trip_lemma k ks Hkeys) as [H1 H2].
  assert (Hrun : for_each (k :: ks) remove_key s
                 = (Ret tt, printed (with_registry s [])
                              (map removing_line (k :: ks)))).
  { rewrite <- Hk. rewrite (remove_present_keys (keys (registry s)) s).
    - rewrite without_all; [reflexivity|]. intros kv Hin.
      unfold keys. now apply in_map.
    - now rewrite Hk.
    - now rewrite Hk.
    - apply Forall_forall. intros k' Hk'. now apply contains_In. }
  unfold remove_loop. rewrite H1, H2. now split.
Qed.

Lemma ignore_value_witness :
  remove_loop (PyStr.split "," (PyStr.join "," (keys IGNORE_PEP))) initial
  = (Ret tt,
     printed (with_registry initial [])
       (map removing_line (keys IGNORE_PEP))).
Proof.
  refine (proj1 (ignore_value_removes_whole_registry initial _
                   IGNORE_PEP_keys_unique _)).
  - discriminate.
  - repeat constructor.
Defined.
